(** * Browser worker: session registry and step executor

    A shallow embedding of [src/index.js] (the Express handlers of the
    worker) together with the properties of its HTTP surface.

    Conventions of the embedding:
    - request bodies are parsed JSON, kept as [JVal]; JSON numbers are
      modelled by integers (the handlers only compare them with 0 and hand
      them to the browser engine);
    - the browser engine (Playwright), the clock, [Math.random] and
      [setTimeout] form the class [Engine]: every call maps a [World] to a
      new [World] and either a value or a rejected [JsError];
    - the [sessions] map is a [gmap] from session id to [Session]; the
      [sessionId] of a request body is a string when present;
    - a handler runs to completion without interleaving with another handler
      or with the expiry timer; the handlers do not thread the diagnostic
      log: [log], the rows of the logs page and [cleanupExpiredSessions]
      are modelled on their own, after the handlers; the static status
      page is left out;
    - [res.write] and [res.flushHeaders] behave as in Node's
      [http.ServerResponse]: they do not throw and [flushHeaders] exists. *)

From Stdlib Require Import ZArith String Ascii List Bool Lia.
From Stdlib Require Import DecimalString.
From stdpp Require Import gmap strings.
Import ListNotations.

Local Open Scope string_scope.

(** ** JavaScript values *)

#[local] Set Warnings "-register-all".

Inductive JVal : Type :=
| JUndef
| JNull
| JBool (b : bool)
| JNum (n : Z)
| JStr (s : string)
| JArr (items : list JVal)
| JObj (fields : list (string * JVal)).

(** [Boolean(v)] *)
Definition truthy (v : JVal) : bool :=
  match v with
  | JUndef | JNull => false
  | JBool b => b
  | JNum n => negb (n =? 0)%Z
  | JStr s => negb (s =? "")
  | JArr _ | JObj _ => true
  end.

(** [a || b] *)
Definition js_or (a b : JVal) : JVal := if truthy a then a else b.

(** [a ?? b] *)
Definition js_nullish (a b : JVal) : JVal :=
  match a with
  | JUndef | JNull => b
  | _ => a
  end.

(** [v === s] for a string literal [s] *)
Definition is_str (v : JVal) (s : string) : bool :=
  match v with
  | JStr t => t =? s
  | _ => false
  end.

(** [typeof v === 'number'] and [typeof v === 'string'] *)
Definition is_number (v : JVal) : bool :=
  match v with JNum _ => true | _ => false end.

Definition is_string (v : JVal) : bool :=
  match v with JStr _ => true | _ => false end.

Fixpoint assoc (k : string) (fs : list (string * JVal)) : JVal :=
  match fs with
  | [] => JUndef
  | (k', v) :: rest => if k =? k' then v else assoc k rest
  end.

(** [v.k] for a non-nullish [v] and one of the field names the handlers
    read ([action], [url], [selector], ...): only an object can own it. *)
Definition prop (v : JVal) (k : string) : JVal :=
  match v with
  | JObj fs => assoc k fs
  | _ => JUndef
  end.

Definition nullish (v : JVal) : bool :=
  match v with
  | JUndef | JNull => true
  | _ => false
  end.

(** [String(v)], as a template literal computes it. *)
Definition string_of_Z (n : Z) : string :=
  NilZero.string_of_int (Z.to_int n).

Fixpoint js_to_string (v : JVal) : string :=
  match v with
  | JUndef => "undefined"
  | JNull => "null"
  | JBool true => "true"
  | JBool false => "false"
  | JNum n => string_of_Z n
  | JStr s => s
  | JArr items =>
      (fix join (l : list JVal) : string :=
         match l with
         | [] => ""
         | x :: rest =>
             let sx := if nullish x then "" else js_to_string x in
             match rest with
             | [] => sx
             | _ :: _ => sx +:+ "," +:+ join rest
             end
         end) items
  | JObj _ => "[object Object]"
  end.

(** ** Errors *)

(** Exceptions are [Error] instances: those the handler constructs itself,
    the [TypeError] of a property read on [null], and the engine's
    rejections ([Error] and its [TimeoutError]). *)
Inductive ErrorClass : Type :=
| ErrorC
| TimeoutErrorC
| TypeErrorC.

Definition class_name (c : ErrorClass) : string :=
  match c with
  | ErrorC => "Error"
  | TimeoutErrorC => "TimeoutError"
  | TypeErrorC => "TypeError"
  end.

Record JsError : Type := mkError {
  err_class : ErrorClass;
  err_message : string
}.

Definition new_Error (msg : string) : JsError := mkError ErrorC msg.

(** [String(e)], that is [Error.prototype.toString] *)
Definition error_to_string (e : JsError) : string :=
  if err_message e =? "" then class_name (err_class e)
  else class_name (err_class e) +:+ ": " +:+ err_message e.

(** [e?.message || String(e)] *)
Definition error_text (e : JsError) : string :=
  if negb (err_message e =? "") then err_message e else error_to_string e.

Inductive Result (A : Type) : Type :=
| Fulfilled (a : A)
| Rejected (e : JsError).

Arguments Fulfilled {A} a.
Arguments Rejected {A} e.

(** [v.k], throwing on [null] and [undefined] *)
Definition get_prop (v : JVal) (k : string) : Result JVal :=
  if nullish v
  then Rejected (mkError TypeErrorC
         ("Cannot read properties of " +:+ js_to_string v
          +:+ " (reading '" +:+ k +:+ "')"))
  else Fulfilled (prop v k).

(** ** The engine and its monad *)

(** What [page.screenshot] resolves to: the handlers accept a string, a
    [Buffer] (converted with [toString('base64')]) or nothing. *)
Inductive ShotData : Type :=
| ShotString (s : string)
| ShotBuffer (base64 : string)
| ShotNothing.

Class Engine : Type := {
  World : Type;
  Browser : Type;
  BrowserContext : Type;
  Page : Type;
  (** [Date.now()] *)
  date_now : World -> Z;
  (** [Math.random().toString(36).slice(2, 10)] *)
  random_tail : World -> World * string;
  (** [new Promise((r) => setTimeout(r, delay))] *)
  set_timeout : Z -> World -> World;
  (** [chromium.launch], [browser.newContext], [context.newPage] *)
  launch : World -> World * Result Browser;
  newContext : Browser -> World -> World * Result BrowserContext;
  newPage : BrowserContext -> World -> World * Result Page;
  (** [browser.close().catch(() => {})] *)
  browser_close : Browser -> World -> World;
  (** [page.goto(url, { waitUntil, timeout })] *)
  page_goto : Page -> JVal -> JVal -> JVal -> World -> World * Result unit;
  (** [page.waitForSelector(selector, { state: 'visible', timeout })] *)
  page_waitForSelector : Page -> JVal -> JVal -> World -> World * Result unit;
  (** [page.click(selector, { timeout: 10000 })] *)
  page_click : Page -> JVal -> World -> World * Result unit;
  (** [page.fill(selector, value, { timeout: 10000 })] *)
  page_fill : Page -> JVal -> JVal -> World -> World * Result unit;
  (** [page.screenshot({ type: 'png', encoding: 'base64', fullPage: false })] *)
  page_screenshot : Page -> World -> World * Result ShotData;
  (** [page.url()] and [page.title()] *)
  page_url : Page -> World -> Result string;
  page_title : Page -> World -> World * Result string;
  (** [page.mouse.click], [page.mouse.wheel], [page.keyboard.type],
      [page.keyboard.press] *)
  mouse_click : Page -> Z -> Z -> World -> World * Result unit;
  mouse_wheel : Page -> Z -> Z -> World -> World * Result unit;
  keyboard_type : Page -> string -> World -> World * Result unit;
  keyboard_press : Page -> string -> World -> World * Result unit
}.

(** Asynchronous code over the engine: a state and exception monad. *)
Definition M `{Engine} (A : Type) : Type := World -> World * Result A.

Definition ret `{Engine} {A} (a : A) : M A := fun w => (w, Fulfilled a).

Definition throw `{Engine} {A} (e : JsError) : M A := fun w => (w, Rejected e).

Definition bind `{Engine} {A B} (m : M A) (k : A -> M B) : M B :=
  fun w =>
    match m w with
    | (w', Fulfilled a) => k a w'
    | (w', Rejected e) => (w', Rejected e)
    end.

(** [try { m } catch (e) { h e }] *)
Definition try_catch `{Engine} {A} (m : M A) (h : JsError -> M A) : M A :=
  fun w =>
    match m w with
    | (w', Fulfilled a) => (w', Fulfilled a)
    | (w', Rejected e) => h e w'
    end.

Definition when `{Engine} (c : bool) (m : M unit) : M unit :=
  if c then m else ret tt.

Declare Scope js_scope.
Delimit Scope js_scope with js.

Notation "x <- m ;; k" := (bind m (fun x => k))
  (at level 100, m at next level, right associativity) : js_scope.
Notation "m ;;; k" := (bind m (fun _ => k))
  (at level 100, right associativity) : js_scope.

Local Open Scope js_scope.

(** ** The response object *)

Inductive Chunk : Type :=
| JsonDoc (data : JVal)    (* the body [res.json(data)] sends *)
| SseFrame (data : JVal).  (* [`data: ${JSON.stringify(data)}\n\n`] *)

Record Res : Type := mkRes {
  statusCode : nat;
  headers : list (string * string);
  headersSent : bool;
  written : list Chunk;
  ended : bool
}.

Definition fresh_res : Res := mkRes 200 [] false [] false.

Definition res_status (code : nat) (r : Res) : Res :=
  mkRes code (headers r) (headersSent r) (written r) (ended r).

Definition res_setHeader (k v : string) (r : Res) : Res :=
  mkRes (statusCode r) (headers r ++ [(k, v)])%list (headersSent r) (written r) (ended r).

Definition res_flushHeaders (r : Res) : Res :=
  mkRes (statusCode r) (headers r) true (written r) (ended r).

Definition res_write (c : Chunk) (r : Res) : Res :=
  mkRes (statusCode r) (headers r) true (written r ++ [c])%list (ended r).

Definition res_end (r : Res) : Res :=
  mkRes (statusCode r) (headers r) true (written r) true.

Definition res_json (data : JVal) (r : Res) : Res :=
  res_end (res_write (JsonDoc data)
             (res_setHeader "Content-Type" "application/json" r)).

Definition sseEvent (data : JVal) : Chunk := SseFrame data.

(** ** Requests *)

Record Request : Type := mkRequest {
  authorization : option string;   (* req.headers.authorization *)
  accept : option string;          (* req.headers.accept *)
  query_stream : option string;    (* req.query.stream *)
  body : JVal                      (* req.body, [JUndef] when absent *)
}.

(** The [sessionId] field of a [/run] body, read as a string. The code
    passes whatever truthy value it finds on to [sessions.get] and
    [sessions.set]; the registry of this model is keyed by strings, so a
    body whose [sessionId] is a number, an object or an array is outside
    the model (here it reads as no [sessionId]). *)
Definition body_sessionId (b : JVal) : option string :=
  match prop b "sessionId" with
  | JStr s => Some s
  | _ => None
  end.

(** Truthiness of a string that may be [null] or [undefined]. *)
Definition truthy_str (o : option string) : bool :=
  match o with
  | Some s => negb (s =? "")
  | None => false
  end.

(** [s.slice(n)] *)
Fixpoint slice_from (n : nat) (s : string) : string :=
  match n, s with
  | O, _ => s
  | S n', String _ rest => slice_from n' rest
  | S _, EmptyString => EmptyString
  end.

(** [Number.prototype.toString(36)] on an integer *)
Definition digit36 (d : Z) : ascii :=
  match String.get (Z.to_nat d) "0123456789abcdefghijklmnopqrstuvwxyz" with
  | Some c => c
  | None => "0"%char
  end.

Fixpoint base36_digits (fuel : nat) (n : Z) (acc : string) : string :=
  match fuel with
  | O => acc
  | S fuel' =>
      let acc' := String (digit36 (n mod 36)) acc in
      if (n <? 36)%Z then acc' else base36_digits fuel' (n / 36) acc'
  end.

Definition to_base36 (n : Z) : string :=
  if (n <? 0)%Z
  then "-" +:+ base36_digits (S (Z.to_nat (Z.log2 (- n)))) (- n) ""
  else base36_digits (S (Z.to_nat (Z.log2 n))) n "".

(** ** The worker *)

Section Worker.

Context `{Engine}.

(** [BROWSER_WORKER_SECRET], trimmed, or [null] *)
Variable SECRET : option string.

Record Session : Type := mkSession {
  browser : Browser;
  context : BrowserContext;
  page : Page;
  lastUsedAt : Z
}.

(** The process state: the [sessions] map and the world outside. *)
Record Server : Type := mkServer {
  sessions : gmap string Session;
  world : World
}.

Definition unauthorized : JVal :=
  JObj [("success", JBool false); ("error", JStr "Unauthorized")].

Definition bearer_token (auth : option string) : option string :=
  match auth with
  | Some a => if String.prefix "Bearer " a then Some (slice_from 7 a) else None
  | None => None
  end.

Definition checkAuth (req : Request) (res : Res) : bool * Res :=
  if negb (truthy_str SECRET) then (true, res)
  else
    let token := bearer_token (authorization req) in
    if negb (bool_decide (token = SECRET))
    then (false, res_json unauthorized (res_status 401 res))
    else (true, res).

Definition randomId (w : World) : World * string :=
  let stamp := to_base36 (date_now w) in
  let '(w', tail) := random_tail w in
  (w', "sess_" +:+ stamp +:+ "_" +:+ tail).

Definition createNewSession (sessionId : string) (srv : Server)
  : Server * Result Session :=
  let launched :=
    (b <- launch ;;
     c <- newContext b ;;
     p <- newPage c ;;
     fun w => (w, Fulfilled (mkSession b c p (date_now w)))) in
  match launched (world srv) with
  | (w, Fulfilled entry) =>
      (mkServer (<[sessionId := entry]> (sessions srv)) w, Fulfilled entry)
  | (w, Rejected e) => (mkServer (sessions srv) w, Rejected e)
  end.

Definition touch (now : Z) (e : Session) : Session :=
  mkSession (browser e) (context e) (page e) now.

Definition getOrCreateSession (requestedId : option string) (srv : Server)
  : Server * Result (string * Page) :=
  let rid := default "" requestedId in
  let existing :=
    if truthy_str requestedId then sessions srv !! rid else None in
  match existing with
  | Some entry =>
      let entry' := touch (date_now (world srv)) entry in
      (mkServer (<[rid := entry']> (sessions srv)) (world srv),
       Fulfilled (rid, page entry'))
  | None =>
      let '(w, id) :=
        if truthy_str requestedId then (world srv, rid)
        else randomId (world srv) in
      match createNewSession id (mkServer (sessions srv) w) with
      | (srv', Fulfilled entry) => (srv', Fulfilled (id, page entry))
      | (srv', Rejected e) => (srv', Rejected e)
      end
  end.

Definition closeSession (sessionId : string) (srv : Server) : Server :=
  match sessions srv !! sessionId with
  | None => srv
  | Some entry =>
      mkServer (delete sessionId (sessions srv))
               (browser_close (browser entry) (world srv))
  end.

(** [GET /health] *)
Definition health (srv : Server) : Server * Res :=
  (srv,
   res_json (JObj [("ok", JBool true);
                   ("service", JStr "terabits-browser-worker");
                   ("sessions", JNum (Z.of_nat (size (sessions srv))))])
            fresh_res).

Definition error_body (msg : string) : JVal :=
  JObj [("success", JBool false); ("error", JStr msg)].

(** [DELETE /session/:sessionId] *)
Definition delete_session (req : Request) (sessionId : string) (srv : Server)
  : Server * Res :=
  match checkAuth req fresh_res with
  | (false, res) => (srv, res)
  | (true, res) =>
      if negb (truthy_str (Some sessionId))
      then (srv, res_json (error_body "sessionId required") (res_status 400 res))
      else
        (closeSession sessionId srv,
         res_json (JObj [("success", JBool true);
                         ("message", JStr "Session closed")]) res)
  end.

(** *** The step executor of [POST /run] *)

Definition shot_base64 (buf : ShotData) : JVal :=
  match buf with
  | ShotString s => JStr s
  | ShotBuffer b64 => JStr b64
  | ShotNothing => JNull
  end.

Definition waitUntil_ok (v : JVal) : bool :=
  is_str v "domcontentloaded" || is_str v "load" || is_str v "networkidle".

Definition positive_number (v : JVal) : bool :=
  match v with
  | JNum n => (0 <? n)%Z
  | _ => false
  end.

Definition sleep (delay : JVal) : M unit :=
  fun w =>
    match delay with
    | JNum n => (set_timeout n w, Fulfilled tt)
    | _ => (w, Fulfilled tt)
    end.

(** The dispatch on [action], lines 231-261. *)
Definition step_action (pg : Page) (action step : JVal) : M unit :=
  if is_str action "navigate" then
    let url := js_or (prop step "url") (JStr "about:blank") in
    let waitUntil := js_or (prop step "waitUntil") (JStr "load") in
    let timeout := js_nullish (prop step "timeout") (JNum 60000) in
    if negb (waitUntil_ok waitUntil)
    then throw (new_Error
           ("waitUntil must be domcontentloaded, load, or networkidle, got: "
            +:+ js_to_string waitUntil))
    else page_goto pg url waitUntil timeout
  else if is_str action "wait" then
    let delay := prop step "delay" in
    let selector := prop step "selector" in
    let selectorTimeout := js_nullish (prop step "selectorTimeout") (JNum 15000) in
    (when (positive_number delay) (sleep delay) ;;;
     when (truthy selector) (page_waitForSelector pg selector selectorTimeout) ;;;
     when (negb (is_number delay) && negb (truthy selector))
          (throw (new_Error "wait action requires delay (ms) and/or selector")))
  else if is_str action "click" then
    let selector := prop step "selector" in
    if negb (truthy selector)
    then throw (new_Error "selector required for click")
    else page_click pg selector
  else if is_str action "fill" then
    let selector := prop step "selector" in
    let value := js_nullish (prop step "value") (JStr "") in
    if negb (truthy selector)
    then throw (new_Error "selector required for fill")
    else page_fill pg selector value
  else ret tt.

Definition capture (pg : Page) : M JVal :=
  (buf <- page_screenshot pg ;; ret (shot_base64 buf)).

(** The inner [try] block of the loop body: the pair
    [(screenshotBase64, error)] it leaves behind. *)
Definition step_body (pg : Page) (action step : JVal) : M (JVal * JVal) :=
  (step_action pg action step ;;;
   shot <- capture pg ;;
   ret (shot, JNull)).

(** Its [catch (e)] block, with the second, best-effort screenshot. *)
Definition step_recover (pg : Page) (e : JsError) : M (JVal * JVal) :=
  let error := JStr (error_text e) in
  try_catch (shot <- capture pg ;; ret (shot, error))
            (fun _ => ret (JNull, error)).

Definition step_try (pg : Page) (action step : JVal) : M (JVal * JVal) :=
  try_catch (step_body pg action step) (step_recover pg).

Definition step_payload (i : nat) (action screenshotBase64 error : JVal) : JVal :=
  JObj [("type", JStr "step");
        ("stepIndex", JNum (Z.of_nat i));
        ("action", action);
        ("screenshotBase64", screenshotBase64);
        ("success", JBool (negb (truthy error)));
        ("error", js_or error JUndef)].

(** The variables the loop and [emitStep] share. *)
Record RunState : Type := mkRunState {
  results : list JVal;
  res : Res
}.

Definition emitStep (stream : bool) (payload : JVal) (rs : RunState) : RunState :=
  let results' := (results rs ++ [payload])%list in
  if stream && headersSent (res rs)
  then mkRunState results' (res_write (sseEvent payload) (res rs))
  else mkRunState results' (res rs).

(** The [for] loop from index [i] on; [Some e] when [e] escaped it. *)
Fixpoint step_loop (stream : bool) (pg : Page) (i : nat) (steps : list JVal)
    (rs : RunState) (w : World) : World * RunState * option JsError :=
  match steps with
  | [] => (w, rs, None)
  | step :: rest =>
      match get_prop step "action" with
      | Rejected e => (w, rs, Some e)
      | Fulfilled a =>
          let action := js_or a (JStr "snapshot") in
          match step_try pg action step w with
          | (w', Fulfilled (screenshotBase64, error)) =>
              let payload := step_payload i action screenshotBase64 error in
              step_loop stream pg (S i) rest (emitStep stream payload rs) w'
          | (w', Rejected e) => (w', rs, Some e)
          end
      end
  end.

(** *** [POST /run] *)

Definition wants_stream (req : Request) : bool :=
  bool_decide (query_stream req = Some "1")
  || bool_decide (accept req = Some "text/event-stream").

Definition id_value (o : option string) : JVal :=
  match o with
  | Some s => JStr s
  | None => JUndef
  end.

Definition done_ok (results : list JVal) (sid : option string) : JVal :=
  JObj [("type", JStr "done"); ("success", JBool true);
        ("steps", JArr results); ("sessionId", id_value sid)].

Definition done_failed (msg : string) (results : list JVal)
    (sid : option string) : JVal :=
  JObj [("type", JStr "done"); ("success", JBool false); ("error", JStr msg);
        ("steps", JArr results); ("sessionId", id_value sid)].

Definition run_ok (results : list JVal) (sid : option string) : JVal :=
  JObj [("success", JBool true); ("steps", JArr results);
        ("sessionId", id_value sid)].

Definition run_failed (msg : string) (results : list JVal)
    (sid : option string) : JVal :=
  JObj [("success", JBool false); ("error", JStr msg);
        ("steps", JArr results); ("sessionId", id_value sid)].

(** The outer [catch (err)] block. *)
Definition run_catch (stream : bool) (err : JsError) (rs : RunState)
    (resolvedSessionId : option string) : Res :=
  let msg := error_text err in
  if stream && headersSent (res rs)
  then res_end (res_write
         (sseEvent (done_failed msg (results rs) resolvedSessionId)) (res rs))
  else res_json (run_failed msg (results rs) resolvedSessionId)
         (res_status 500 (res rs)).

(** [requestedSessionId || null] *)
Definition requested (requestedSessionId : option string) : option string :=
  if truthy_str requestedSessionId then requestedSessionId else None.

(** The outer [try] block, given [steps] already checked to be an array. *)
Definition run_try (stream : bool) (steps : list JVal)
    (requestedSessionId : option string) (res0 : Res) (srv : Server)
  : Server * Res :=
  let res1 :=
    if stream
    then res_flushHeaders
           (res_setHeader "Connection" "keep-alive"
              (res_setHeader "Cache-Control" "no-cache"
                 (res_setHeader "Content-Type" "text/event-stream" res0)))
    else res0 in
  match getOrCreateSession (requested requestedSessionId) srv with
  | (srv1, Rejected err) =>
      (srv1, run_catch stream err (mkRunState [] res1) None)
  | (srv1, Fulfilled (sid, pg)) =>
      match step_loop stream pg 0 steps (mkRunState [] res1) (world srv1) with
      | (w, rs, Some err) =>
          (mkServer (sessions srv1) w, run_catch stream err rs (Some sid))
      | (w, rs, None) =>
          (mkServer (sessions srv1) w,
           if stream
           then res_end (res_write
                  (sseEvent (done_ok (results rs) (Some sid))) (res rs))
           else res_json (run_ok (results rs) (Some sid)) (res rs))
      end
  end.

Definition run (req : Request) (srv : Server) : Server * Res :=
  match checkAuth req fresh_res with
  | (false, res) => (srv, res)
  | (true, res) =>
      let stream := wants_stream req in
      let b := js_or (body req) (JObj []) in
      let steps := prop b "steps" in
      let requestedSessionId := body_sessionId b in
      match steps with
      | JArr ((_ :: _) as items) =>
          if (15 <? length items)%nat
          then (srv, res_json (error_body "max 15 steps") (res_status 400 res))
          else run_try stream items requestedSessionId res srv
      | _ =>
          (srv, res_json (error_body "steps array required (1-15 items)")
                  (res_status 400 res))
      end
  end.

(** *** The direct control surface *)

Definition not_found : JVal := error_body "Session not found".

Definition current_url (pg : Page) : M string := fun w => (w, page_url pg w).

Definition current_title (pg : Page) : M string :=
  try_catch (page_title pg) (fun _ => ret "").

(** Close a handler's [try] block with its [catch (e)]. *)
Definition respond (m : M (nat * JVal)) (res : Res) (w : World) : World * Res :=
  match m w with
  | (w', Fulfilled (code, data)) => (w', res_json data (res_status code res))
  | (w', Rejected e) =>
      (w', res_json (error_body (error_text e)) (res_status 500 res))
  end.

(** [GET /session/:sessionId/screenshot] *)
Definition get_screenshot (req : Request) (sessionId : string) (srv : Server)
  : Server * Res :=
  match checkAuth req fresh_res with
  | (false, res) => (srv, res)
  | (true, res) =>
      match sessions srv !! sessionId with
      | None => (srv, res_json not_found (res_status 404 res))
      | Some entry =>
          let '(w, res') :=
            respond
              (screenshotBase64 <- capture (page entry) ;;
               url <- current_url (page entry) ;;
               title <- current_title (page entry) ;;
               ret (200%nat,
                    JObj [("success", JBool true);
                          ("screenshotBase64", screenshotBase64);
                          ("url", JStr url); ("title", JStr title);
                          ("sessionId", JStr sessionId)]))
              res (world srv) in
          (mkServer (sessions srv) w, res')
      end
  end.

(** [GET /session/:sessionId/info] *)
Definition get_info (req : Request) (sessionId : string) (srv : Server)
  : Server * Res :=
  match checkAuth req fresh_res with
  | (false, res) => (srv, res)
  | (true, res) =>
      match sessions srv !! sessionId with
      | None => (srv, res_json not_found (res_status 404 res))
      | Some entry =>
          let '(w, res') :=
            respond
              (url <- current_url (page entry) ;;
               title <- current_title (page entry) ;;
               ret (200%nat,
                    JObj [("success", JBool true);
                          ("url", JStr url); ("title", JStr title);
                          ("sessionId", JStr sessionId)]))
              res (world srv) in
          (mkServer (sessions srv) w, res')
      end
  end.

(** The dispatch of [/interact] on [action]: [Some msg] when it leaves
    through one of the 400 responses, [None] when the action ran. *)
Definition interact_action (pg : Page) (b : JVal) : M (option string) :=
  let action := prop b "action" in
  let x := prop b "x" in
  let y := prop b "y" in
  let text := prop b "text" in
  let targetUrl := prop b "url" in
  let key := prop b "key" in
  if is_str action "click" then
    match x, y with
    | JNum nx, JNum ny => (mouse_click pg nx ny ;;; ret None)
    | _, _ => ret (Some "x and y required for click")
    end
  else if is_str action "type" then
    match text with
    | JStr t => (keyboard_type pg t ;;; ret None)
    | _ => ret (Some "text required for type")
    end
  else if is_str action "key" then
    match key with
    | JStr k => (keyboard_press pg k ;;; ret None)
    | _ => ret (Some "key required for key action")
    end
  else if is_str action "navigate" then
    match targetUrl with
    | JStr _ =>
        (page_goto pg targetUrl (JStr "load") (JNum 60000) ;;; ret None)
    | _ => ret (Some "url required for navigate")
    end
  else if is_str action "scroll" then
    match x, y with
    | JNum nx, JNum ny => (mouse_wheel pg nx ny ;;; ret None)
    | _, _ => ret (Some "x and y (delta) required for scroll")
    end
  else ret (Some ("Unknown action: " +:+ js_to_string action)).

(** [POST /session/:sessionId/interact] *)
Definition interact (req : Request) (sessionId : string) (srv : Server)
  : Server * Res :=
  match checkAuth req fresh_res with
  | (false, res) => (srv, res)
  | (true, res) =>
      match sessions srv !! sessionId with
      | None => (srv, res_json not_found (res_status 404 res))
      | Some entry =>
          let b := js_or (body req) (JObj []) in
          let pg := page entry in
          let sessions' :=
            <[sessionId := touch (date_now (world srv)) entry]> (sessions srv) in
          let '(w, res') :=
            respond
              (rejected <- interact_action pg b ;;
               match rejected with
               | Some msg => ret (400%nat, error_body msg)
               | None =>
                   screenshotBase64 <- capture pg ;;
                   currentUrl <- current_url pg ;;
                   title <- current_title pg ;;
                   ret (200%nat,
                        JObj [("success", JBool true);
                              ("screenshotBase64", screenshotBase64);
                              ("url", JStr currentUrl); ("title", JStr title);
                              ("sessionId", JStr sessionId)])
               end)
              res (world srv) in
          (mkServer sessions' w, res')
      end
  end.

(** *** Routing *)

Inductive Endpoint : Type :=
| GetHealth
| PostRun
| DeleteSession (sessionId : string)
| GetScreenshot (sessionId : string)
| GetInfo (sessionId : string)
| PostInteract (sessionId : string).

Definition handle (ep : Endpoint) (req : Request) (srv : Server)
  : Server * Res :=
  match ep with
  | GetHealth => health srv
  | PostRun => run req srv
  | DeleteSession sid => delete_session req sid srv
  | GetScreenshot sid => get_screenshot req sid srv
  | GetInfo sid => get_info req sid srv
  | PostInteract sid => interact req sid srv
  end.

(** The endpoints that start with [checkAuth]. *)
Definition authenticated (ep : Endpoint) : bool :=
  match ep with
  | GetHealth => false
  | _ => true
  end.

End Worker.

Arguments Session {_}.
Arguments Server {_}.
Arguments RunState : clear implicits.

(** ** Reading a response *)

(** Successive [res.write] calls. *)
Definition write_all (cs : list Chunk) (r : Res) : Res :=
  fold_left (fun r c => res_write c r) cs r.

(** The response object as [run_try] hands it to the loop. *)
Definition stream_res : Res :=
  res_flushHeaders
    (res_setHeader "Connection" "keep-alive"
       (res_setHeader "Cache-Control" "no-cache"
          (res_setHeader "Content-Type" "text/event-stream" fresh_res))).

(** The loop's variables on entry: no result yet, and the response
    object of the delivery mode. *)
Definition loop_start (stream : bool) : RunState :=
  mkRunState [] (if stream then stream_res else fresh_res).

(** What the success path sends last, in either delivery mode. *)
Definition success_chunks (stream : bool) (results : list JVal)
    (sid : string) : list Chunk :=
  if stream
  then (map sseEvent results ++ [sseEvent (done_ok results (Some sid))])%list
  else [JsonDoc (run_ok results (Some sid))].

(** The action name the loop computes for a step: [step.action || 'snapshot']. *)
Definition action_of (step : JVal) : JVal :=
  js_or (prop step "action") (JStr "snapshot").

Definition step_index (payload : JVal) : JVal := prop payload "stepIndex".

Definition index_value (k : nat) : JVal := JNum (Z.of_nat k).

(** The step events of an event stream, in the order they were written. *)
Fixpoint streamed_steps (cs : list Chunk) : list JVal :=
  match cs with
  | [] => []
  | SseFrame d :: rest =>
      if is_str (prop d "type") "step"
      then d :: streamed_steps rest
      else streamed_steps rest
  | JsonDoc _ :: rest => streamed_steps rest
  end.

(** The [steps] array of a buffered JSON response. *)
Definition buffered_steps (cs : list Chunk) : list JVal :=
  match cs with
  | [JsonDoc d] =>
      match prop d "steps" with
      | JArr items => items
      | _ => []
      end
  | _ => []
  end.

(** [Array.isArray(steps) && 1 <= steps.length && steps.length <= 15] *)
Definition valid_steps (steps : JVal) : bool :=
  match steps with
  | JArr items => (1 <=? length items)%nat && (length items <=? 15)%nat
  | _ => false
  end.

(** The [steps] field a [/run] handler reads from its request. *)
Definition request_steps (req : Request) : JVal :=
  prop (js_or (body req) (JObj [])) "steps".

Definition request_sessionId (req : Request) : option string :=
  body_sessionId (js_or (body req) (JObj [])).

(** A response that has been sent and closed, with one of the five status
    codes the worker uses. *)
Definition finished (r : Res) : Prop :=
  ended r = true
  /\ headersSent r = true
  /\ written r <> []
  /\ In (statusCode r) [200; 400; 401; 404; 500]%nat.


(** Reading a base-36 numeral back, to tell generated ids apart. *)
Fixpoint index_of (c : ascii) (s : string) : nat :=
  match s with
  | EmptyString => O
  | String a rest => if Ascii.eqb a c then O else S (index_of c rest)
  end.

Definition digit_value (c : ascii) : Z :=
  Z.of_nat (index_of c "0123456789abcdefghijklmnopqrstuvwxyz").

Definition from_base36 (s : string) : Z :=
  fold_left (fun v c => (36 * v + digit_value c)%Z) (list_ascii_of_string s) 0%Z.

(** The five action names the executor dispatches on or documents. *)
Definition known_action (s : string) : bool :=
  (s =? "navigate") || (s =? "wait") || (s =? "click") || (s =? "fill")
  || (s =? "snapshot").

(** ** A small engine to run the handlers on *)

Module Demo.

Record DemoWorld : Type := mkWorld {
  clock : Z;
  calls : list string
}.

Definition call {A} (name : string) (r : Result A) (w : DemoWorld)
  : DemoWorld * Result A :=
  (mkWorld (clock w + 1) (calls w ++ [name])%list, r).

Definition timeout_error (what : string) : JsError :=
  mkError TimeoutErrorC ("Timeout 10000ms exceeded waiting for " +:+ what).

(** Pages are numbered; page 0 is a closed page. Navigation fails for the
    host [down.example], selectors named [#missing] never appear, and no
    browser can be launched before time 0. *)
#[local] Instance demo : Engine := {|
  World := DemoWorld;
  Browser := nat;
  BrowserContext := nat;
  Page := nat;
  date_now := clock;
  random_tail := fun w => (w, "k3x9q2ab");
  set_timeout := fun n w => mkWorld (clock w + n) (calls w);
  launch := fun w =>
    call "launch"
      (if (clock w <? 0)%Z then Rejected (new_Error "Failed to launch browser")
       else Fulfilled 1%nat) w;
  newContext := fun b w => call "newContext" (Fulfilled b) w;
  newPage := fun c w => call "newPage" (Fulfilled c) w;
  browser_close := fun _ w => fst (call "close" (Fulfilled tt) w);
  page_goto := fun _ url _ _ w =>
    call "goto"
      (if is_str url "https://down.example"
       then Rejected (new_Error "net::ERR_CONNECTION_REFUSED")
       else Fulfilled tt) w;
  page_waitForSelector := fun _ sel _ w =>
    call "waitForSelector"
      (if is_str sel "#missing" then Rejected (timeout_error "selector")
       else Fulfilled tt) w;
  page_click := fun _ sel w =>
    call "click"
      (if is_str sel "#missing" then Rejected (timeout_error "locator")
       else Fulfilled tt) w;
  page_fill := fun _ sel _ w =>
    call "fill"
      (if is_str sel "#missing" then Rejected (timeout_error "locator")
       else Fulfilled tt) w;
  page_screenshot := fun pg w =>
    call "screenshot"
      (match pg with
       | O => Rejected (new_Error "Target page has been closed")
       | S _ => Fulfilled (ShotBuffer "iVBORw0KGgo=")
       end) w;
  page_url := fun _ _ => Fulfilled "about:blank";
  page_title := fun _ w => call "title" (Fulfilled "") w;
  mouse_click := fun _ _ _ w => call "mouse.click" (Fulfilled tt) w;
  mouse_wheel := fun _ _ _ w => call "mouse.wheel" (Fulfilled tt) w;
  keyboard_type := fun _ _ w => call "keyboard.type" (Fulfilled tt) w;
  keyboard_press := fun _ _ w => call "keyboard.press" (Fulfilled tt) w
|}.

Definition w0 : DemoWorld := mkWorld 1000 [].

(** A server with no session, and one holding session [s1] unused since 0. *)
Definition empty_server : Server := mkServer ∅ w0.

(** A server whose engine cannot launch a browser. *)
Definition cold_server : Server := mkServer ∅ (mkWorld (-5) []).

Definition s1_entry : Session := mkSession 1%nat 1%nat 1%nat 0.

Definition s1_server : Server := mkServer {[ "s1" := s1_entry ]} w0.

Definition post (b : JVal) : Request := mkRequest None None None b.

Definition post_stream (b : JVal) : Request := mkRequest None None (Some "1") b.

Definition navigate_step (url : string) : JVal :=
  JObj [("action", JStr "navigate"); ("url", JStr url)].

Definition click_step (selector : string) : JVal :=
  JObj [("action", JStr "click"); ("selector", JStr selector)].

Definition steps_body (steps : list JVal) : JVal :=
  JObj [("steps", JArr steps)].

(** A step list holding a JSON [null], and a [navigate] without [url]. *)
Definition null_request : Request := post (steps_body [JNull]).



(** A step with no [action], and one with an action the executor does
    not know. *)
Definition no_action_step : JVal := JObj [("selector", JStr "#main")].

Definition hover_step : JVal :=
  JObj [("action", JStr "hover"); ("selector", JStr "#main")].

(** Requests of the direct control surface. *)
Definition get : Request := mkRequest None None None JUndef.

Definition press_enter : Request :=
  post (JObj [("action", JStr "key"); ("key", JStr "Enter")]).

Definition reuse_s1 : Request :=
  post (JObj [("sessionId", JStr "s1"); ("steps", JArr [JObj []])]).

(** The request of the spec's example scenario. *)
Definition scenario : JVal :=
  steps_body [navigate_step "https://example.com"; click_step "#missing"].

End Demo.

(** More sample states and requests. *)
Module Samples.

Import Demo.

#[local] Existing Instance demo.

(** At time 1000: [s1] idle since 0 and [s2] used at 900. *)
Definition s2_entry : Session := mkSession 2%nat 2%nat 2%nat 900.

Definition two_sessions : Server :=
  mkServer (<["s2" := s2_entry]> {[ "s1" := s1_entry ]}) w0.

(** A click without coordinates, for [/interact]. *)
Definition click_nowhere : Request := post (JObj [("action", JStr "click")]).

(** A step list with a [null] in the middle. *)
Definition broken_steps : list JVal :=
  [navigate_step "https://example.com"; JNull; click_step "#go"].

Definition broken_request : Request := post (steps_body broken_steps).

(** The same clock after one more engine call. *)
Definition w0_later_call : DemoWorld := mkWorld 1000 ["title"].

(** The example scenario followed by one more step: a failing click in
    the middle of a run. *)
Definition scenario_then_snapshot : list JVal :=
  [navigate_step "https://example.com"; click_step "#missing"; JObj []].

Definition scenario_then_snapshot_request : Request :=
  post (steps_body scenario_then_snapshot).

(** Session [gone] whose page (page 0) has been closed, and runs of an
    unknown action on it and on a new session. *)
Definition gone_entry : Session := mkSession 1%nat 1%nat 0%nat 0.

Definition gone_server : Server := mkServer {[ "gone" := gone_entry ]} w0.

Definition hover_on_gone : Request :=
  post (JObj [("sessionId", JStr "gone"); ("steps", JArr [hover_step])]).

Definition hover_then_click : list JVal := [hover_step; click_step "#go"].

Definition hover_then_click_request : Request :=
  post (steps_body hover_then_click).

End Samples.

(** ** The rest of the file: the log, the logs page, the expiry sweep *)

(** *** [log] and [logEntries] *)

Definition MAX_LOG_ENTRIES : nat := 100.

(** [obj[k] = v] on an object literal: an own key keeps its place. *)
Fixpoint obj_set (k : string) (v : JVal) (fs : list (string * JVal))
  : list (string * JVal) :=
  match fs with
  | [] => [(k, v)]
  | (k', v') :: rest =>
      if k =? k' then (k, v) :: rest else (k', v') :: obj_set k v rest
  end.

(** [{ ...fs, ...meta }] *)
Definition obj_spread (fs meta : list (string * JVal)) : list (string * JVal) :=
  fold_left (fun acc kv => obj_set (fst kv) (snd kv) acc) meta fs.

(** The entry [log] builds; [ts] is [new Date().toISOString()]. *)
Definition log_entry (ts level message : string) (meta : list (string * JVal))
  : JVal :=
  JObj (obj_spread [("ts", JStr ts); ("level", JStr level);
                    ("message", JStr message)] meta).

(** [logEntries.push(entry)], then one [shift] when over the limit. *)
Definition log_push (entry : JVal) (logEntries : list JVal) : list JVal :=
  let pushed := (logEntries ++ [entry])%list in
  if (MAX_LOG_ENTRIES <? length pushed)%nat then tl pushed else pushed.

Definition log (ts level message : string) (meta : list (string * JVal))
    (logEntries : list JVal) : list JVal :=
  log_push (log_entry ts level message meta) logEntries.

(** [logEntries] after the entries [es] were pushed one after the other. *)
Definition log_pushes (es logEntries : list JVal) : list JVal :=
  fold_left (fun acc e => log_push e acc) es logEntries.

Definition has_key (k : string) (fs : list (string * JVal)) : bool :=
  existsb (String.eqb k) (map fst fs).

(** *** [escapeHtml] and the rows of [GET /logs] *)

Definition dquote : ascii := "034"%char.

(** [s.replace(/c/g, by)] for a one-character pattern *)
Fixpoint replace_char (c : ascii) (by_ : string) (s : string) : string :=
  match s with
  | EmptyString => EmptyString
  | String a rest =>
      if Ascii.eqb a c then by_ +:+ replace_char c by_ rest
      else String a (replace_char c by_ rest)
  end.

Definition escapeHtml (v : JVal) : string :=
  if nullish v then ""
  else replace_char dquote "&quot;"
         (replace_char ">" "&gt;"
            (replace_char "<" "&lt;"
               (replace_char "&" "&amp;" (js_to_string v)))).

(** What one character becomes in a single left-to-right pass. *)
Definition escape_char (a : ascii) : string :=
  if Ascii.eqb a "&" then "&amp;"
  else if Ascii.eqb a "<" then "&lt;"
  else if Ascii.eqb a ">" then "&gt;"
  else if Ascii.eqb a dquote then "&quot;"
  else String a "".

Fixpoint escape_string (s : string) : string :=
  match s with
  | EmptyString => EmptyString
  | String a rest => escape_char a +:+ escape_string rest
  end.

(** Reading the four entities back, to tell escaped texts apart. *)
Fixpoint unescape (s : string) : string :=
  match s with
  | String "&" (String "a" (String "m" (String "p" (String ";" rest)))) =>
      String "&" (unescape rest)
  | String "&" (String "l" (String "t" (String ";" rest))) =>
      String "<" (unescape rest)
  | String "&" (String "g" (String "t" (String ";" rest))) =>
      String ">" (unescape rest)
  | String "&" (String "q" (String "u" (String "o" (String "t"
      (String ";" rest))))) =>
      String dquote (unescape rest)
  | String a rest => String a (unescape rest)
  | EmptyString => EmptyString
  end.

Definition occurs (c : ascii) (s : string) : bool :=
  existsb (Ascii.eqb c) (list_ascii_of_string s).

(** [s.slice(0, n)] *)
Fixpoint slice_to (n : nat) (s : string) : string :=
  match n, s with
  | S n', String a rest => String a (slice_to n' rest)
  | _, _ => EmptyString
  end.

(** The last cell of a row: [e.error ? escapeHtml(e.error).slice(0, 200) : '-'] *)
Definition error_cell (e : JVal) : string :=
  if truthy (prop e "error")
  then slice_to 200 (escapeHtml (prop e "error"))
  else "-".

Definition log_row (e : JVal) : string :=
  "<tr><td>" +:+ js_to_string (prop e "ts") +:+ "</td><td>"
  +:+ js_to_string (prop e "level") +:+ "</td><td>"
  +:+ escapeHtml (prop e "message") +:+ "</td><td>"
  +:+ error_cell e +:+ "</td></tr>".

(** [logEntries.slice().reverse().map(...).join('')] *)
Definition logs_rows (logEntries : list JVal) : string :=
  String.concat "" (map log_row (rev logEntries)).

Definition no_entries_row : string :=
  "<tr><td colspan=" +:+ String dquote ("4" +:+ String dquote
    ">No entries yet.</td></tr>").

(** The table body of the page: [rows || '<tr>...No entries yet...</tr>'] *)
Definition logs_tbody (logEntries : list JVal) : string :=
  let rows := logs_rows logEntries in
  if rows =? "" then no_entries_row else rows.

(** *** [cleanupExpiredSessions] *)

Section Reaper.

Context `{Engine}.

(** [SESSION_TTL_MS] *)
Variable SESSION_TTL_MS : Z.

(** [now - entry.lastUsedAt > SESSION_TTL_MS] *)
Definition expired (now : Z) (entry : Session) : bool :=
  (SESSION_TTL_MS <? now - lastUsedAt entry)%Z.

(** The [for ... of sessions.entries()] loop. A [gmap] does not keep the
    insertion order in which a JS [Map] yields its entries, so the order
    is the argument [order]; an id the map no longer holds is not
    yielded. *)
Fixpoint sweep (now : Z) (order : list string) (srv : Server) : Server :=
  match order with
  | [] => srv
  | id :: rest =>
      match sessions srv !! id with
      | Some entry =>
          if expired now entry
          then sweep now rest (closeSession id srv)
          else sweep now rest srv
      | None => sweep now rest srv
      end
  end.

Definition cleanupExpiredSessions (order : list string) (srv : Server) : Server :=
  sweep (date_now (world srv)) order srv.

(** [order] yields every entry of the map. *)
Definition enumerates (order : list string) (srv : Server) : Prop :=
  forall id : string, is_Some (sessions srv !! id) -> In id order.

End Reaper.

(** ** Properties of the values and of the auth gate *)

Lemma error_text_nonempty (e : JsError) : error_text e <> "".
Proof.
  destruct e as [c m]. unfold error_text, error_to_string. simpl.
  destruct m as [|a m]; simpl; [destruct c; discriminate | discriminate].
Qed.

Lemma error_text_truthy (e : JsError) : truthy (JStr (error_text e)) = true.
Proof.
  simpl. destruct (String.eqb_spec (error_text e) ""); [|reflexivity].
  exfalso. eapply error_text_nonempty; eassumption.
Qed.

Lemma payload_success (i : nat) (action shot error : JVal) :
  prop (step_payload i action shot error) "success" = JBool (negb (truthy error)).
Proof. reflexivity. Qed.

Lemma payload_error (i : nat) (action shot error : JVal) :
  prop (step_payload i action shot error) "error" = js_or error JUndef.
Proof. reflexivity. Qed.

Lemma payload_index (i : nat) (action shot error : JVal) :
  step_index (step_payload i action shot error) = index_value i.
Proof. reflexivity. Qed.

Lemma get_prop_fulfilled (v : JVal) (k : string) :
  nullish v = false -> get_prop v k = Fulfilled (prop v k).
Proof. unfold get_prop. intros ->. reflexivity. Qed.

Lemma get_prop_rejected (v : JVal) (k : string) :
  nullish v = true -> exists e, get_prop v k = Rejected e.
Proof. unfold get_prop. intros ->. eauto. Qed.

Lemma prefix_slice (p s : string) :
  String.prefix p s = true -> s = p +:+ slice_from (String.length p) s.
Proof.
  revert s. induction p as [|a p IH]; intros s Hp.
  - reflexivity.
  - destruct s as [|b s]; simpl in Hp; [discriminate|].
    destruct (Ascii.ascii_dec a b) as [->|Hab]; [|discriminate].
    change (String b s = String b (p +:+ slice_from (String.length p) s)).
    f_equal. apply IH. assumption.
Qed.

Lemma prefix_append (p s : string) : String.prefix p (p +:+ s) = true.
Proof.
  induction p as [|a p IH].
  - destruct s; reflexivity.
  - change (String.prefix (String a p) (String a (p +:+ s)) = true).
    simpl. destruct (Ascii.ascii_dec a a); [assumption | congruence].
Qed.

Lemma slice_append (p s : string) : slice_from (String.length p) (p +:+ s) = s.
Proof.
  induction p as [|a p IH]; [reflexivity|].
  change (slice_from (String.length p) (p +:+ s) = s). assumption.
Qed.

(** The token read from the header is the secret exactly when the header
    is [Bearer ] followed by the secret. *)
Lemma bearer_token_exact (auth : option string) (secret : string) :
  bearer_token auth = Some secret <-> auth = Some ("Bearer " +:+ secret).
Proof.
  unfold bearer_token. split.
  - destruct auth as [a|]; [|discriminate].
    destruct (String.prefix "Bearer " a) eqn:Hp; [|discriminate].
    intros [= <-]. f_equal. apply (prefix_slice "Bearer " a Hp).
  - intros ->. rewrite prefix_append. reflexivity.
Qed.

Lemma checkAuth_open (req : Request) (res : Res) :
  checkAuth None req res = (true, res).
Proof. reflexivity. Qed.

Lemma checkAuth_accepts (secret : string) (req : Request) (res : Res) :
  authorization req = Some ("Bearer " +:+ secret) ->
  checkAuth (Some secret) req res = (true, res).
Proof.
  intros Hauth. unfold checkAuth.
  destruct (truthy_str (Some secret)); [|reflexivity]. simpl.
  apply bearer_token_exact in Hauth. rewrite Hauth.
  rewrite bool_decide_eq_true_2; reflexivity.
Qed.

Lemma checkAuth_rejects (secret : string) (req : Request) (res : Res) :
  secret <> "" ->
  authorization req <> Some ("Bearer " +:+ secret) ->
  checkAuth (Some secret) req res
  = (false, res_json unauthorized (res_status 401 res)).
Proof.
  intros Hs Hauth. unfold checkAuth. simpl.
  destruct (String.eqb_spec secret ""); [contradiction|]. simpl.
  rewrite bool_decide_eq_false_2; [reflexivity|].
  intros Htok. apply Hauth. apply bearer_token_exact. assumption.
Qed.

(** ** Properties of the registry and of the gates *)

Section Gates.

Context `{Engine}.

Lemma closeSession_absent (id : string) (srv : Server) :
  sessions srv !! id = None -> closeSession id srv = srv.
Proof. unfold closeSession. intros ->. reflexivity. Qed.

Lemma closeSession_removes (id : string) (srv : Server) :
  sessions (closeSession id srv) !! id = None.
Proof.
  unfold closeSession. destruct (sessions srv !! id) eqn:Hid; simpl.
  - apply lookup_delete_eq.
  - assumption.
Qed.

Lemma closeSession_others (id id' : string) (srv : Server) :
  id <> id' -> sessions (closeSession id srv) !! id' = sessions srv !! id'.
Proof.
  intros Hne. unfold closeSession. destruct (sessions srv !! id); simpl.
  - apply lookup_delete_ne. assumption.
  - reflexivity.
Qed.

(** C9. Closing is idempotent: closing an id the registry does not hold
    changes nothing and raises nothing, [DELETE /session/:id] for such an
    id answers 200 with [success: true], and closing an id twice leaves
    the server as closing it once does. *)
Theorem close_is_idempotent (SECRET : option string) (req : Request)
    (id : string) (srv : Server) :
  fst (checkAuth SECRET req fresh_res) = true ->
  id <> "" ->
  sessions srv !! id = None ->
  closeSession id srv = srv
  /\ delete_session SECRET req id srv
     = (srv, res_json (JObj [("success", JBool true);
                             ("message", JStr "Session closed")]) fresh_res)
  /\ statusCode (snd (delete_session SECRET req id srv)) = 200%nat
  /\ forall srv0 : Server,
       closeSession id (closeSession id srv0) = closeSession id srv0.
Proof.
  intros Hauth Hid Habsent.
  assert (Hclose : closeSession id srv = srv)
    by (apply closeSession_absent; assumption).
  assert (Hdel : delete_session SECRET req id srv
     = (srv, res_json (JObj [("success", JBool true);
                             ("message", JStr "Session closed")]) fresh_res)).
  { unfold delete_session.
    assert (Hres : checkAuth SECRET req fresh_res = (true, fresh_res)).
    { unfold checkAuth in *. destruct (negb (truthy_str SECRET)); [reflexivity|].
      destruct (negb (bool_decide _)); [discriminate | reflexivity]. }
    rewrite Hres. simpl.
    destruct (String.eqb_spec id ""); [contradiction|]. simpl.
    rewrite Hclose. reflexivity. }
  split; [exact Hclose|]. split; [exact Hdel|]. split.
  - rewrite Hdel. reflexivity.
  - intros srv0. apply closeSession_absent, closeSession_removes.
Qed.

Lemma checkAuth_passed (SECRET : option string) (req : Request) (res : Res) :
  fst (checkAuth SECRET req res) = true -> checkAuth SECRET req res = (true, res).
Proof.
  unfold checkAuth. destruct (negb (truthy_str SECRET)); [reflexivity|].
  destruct (negb (bool_decide _)); [discriminate | reflexivity].
Qed.

Lemma checkAuth_failed (SECRET : option string) (req : Request) (res : Res) :
  fst (checkAuth SECRET req res) = false ->
  checkAuth SECRET req res = (false, res_json unauthorized (res_status 401 res)).
Proof.
  unfold checkAuth. destruct (negb (truthy_str SECRET)); [discriminate|].
  destruct (negb (bool_decide _)); [reflexivity | discriminate].
Qed.

(** Whatever the endpoint, a request the gate turns away leaves the server
    as it was and is answered 401. *)
Lemma handle_unauthorized (SECRET : option string) (ep : Endpoint)
    (req : Request) (srv : Server) :
  authenticated ep = true ->
  fst (checkAuth SECRET req fresh_res) = false ->
  handle SECRET ep req srv
  = (srv, res_json unauthorized (res_status 401 fresh_res)).
Proof.
  intros Hep Hauth. apply checkAuth_failed in Hauth.
  destruct ep; simpl in *; try discriminate;
    unfold run, delete_session, get_screenshot, get_info, interact;
    rewrite Hauth; reflexivity.
Qed.

(** C6. With a secret configured, a request to an authenticated endpoint
    whose [Authorization] header is missing or differs from
    [Bearer <secret>] is answered 401 [Unauthorized] and the server (the
    [sessions] map and the engine) is left exactly as it was; the exact
    header passes; with no secret configured every request passes. *)
Theorem auth_gate_fails_closed (secret : string) (ep : Endpoint)
    (req : Request) (srv : Server) :
  secret <> "" ->
  authenticated ep = true ->
  authorization req <> Some ("Bearer " +:+ secret) ->
  handle (Some secret) ep req srv
  = (srv, res_json unauthorized (res_status 401 fresh_res))
  /\ statusCode (snd (handle (Some secret) ep req srv)) = 401%nat
  /\ sessions (fst (handle (Some secret) ep req srv)) = sessions srv
  /\ (forall (req' : Request) (res' : Res),
        authorization req' = Some ("Bearer " +:+ secret) ->
        checkAuth (Some secret) req' res' = (true, res'))
  /\ (forall (req' : Request) (res' : Res),
        checkAuth None req' res' = (true, res')).
Proof.
  intros Hs Hep Hauth.
  assert (Hh : handle (Some secret) ep req srv
               = (srv, res_json unauthorized (res_status 401 fresh_res))).
  { apply handle_unauthorized; [assumption|].
    rewrite checkAuth_rejects by assumption. reflexivity. }
  rewrite Hh. simpl.
  split; [reflexivity|]. split; [reflexivity|]. split; [reflexivity|]. split.
  - intros req' res'. apply checkAuth_accepts.
  - intros req' res'. apply checkAuth_open.
Qed.

(** C5. A [/run] request whose [steps] is not an array of 1 to 15 items
    never reaches [getOrCreateSession]: the server (sessions and engine)
    is returned unchanged, and a request that passed the auth gate is
    answered 400 with one of the two validation messages. *)
Theorem run_rejects_invalid_steps (SECRET : option string) (req : Request)
    (srv : Server) :
  valid_steps (request_steps req) = false ->
  fst (run SECRET req srv) = srv
  /\ (fst (checkAuth SECRET req fresh_res) = true ->
      exists msg : string,
        run SECRET req srv
        = (srv, res_json (error_body msg) (res_status 400 fresh_res))
        /\ (msg = "steps array required (1-15 items)" \/ msg = "max 15 steps")).
Proof.
  unfold valid_steps, request_steps. intros Hbad.
  assert (Hrun : forall res,
    match prop (js_or (body req) (JObj [])) "steps" with
    | JArr ((_ :: _) as items) =>
        if (15 <? length items)%nat
        then (srv, res_json (error_body "max 15 steps") (res_status 400 res))
        else run_try (wants_stream req) items
               (body_sessionId (js_or (body req) (JObj []))) res srv
    | _ => (srv, res_json (error_body "steps array required (1-15 items)")
                   (res_status 400 res))
    end
    = (srv, res_json (error_body
              (match prop (js_or (body req) (JObj [])) "steps" with
               | JArr (_ :: _) => "max 15 steps"
               | _ => "steps array required (1-15 items)"
               end)) (res_status 400 res))).
  { intros res.
    destruct (prop (js_or (body req) (JObj [])) "steps") as [| | | | |items|];
      try reflexivity.
    destruct items as [|x items]; [reflexivity|].
    destruct (15 <? length (x :: items))%nat eqn:Hlen; [reflexivity|].
    apply Nat.ltb_ge in Hlen. simpl in Hbad, Hlen.
    apply Nat.leb_gt in Hbad. lia. }
  split.
  - unfold run. destruct (checkAuth SECRET req fresh_res) as [[|] res];
      [rewrite Hrun|]; reflexivity.
  - intros Hauth. apply checkAuth_passed in Hauth.
    eexists. split.
    + unfold run. rewrite Hauth. apply Hrun.
    + destruct (prop (js_or (body req) (JObj [])) "steps") as [| | | | |[|]|];
        auto.
Qed.

End Gates.

(** ** Properties of the step executor *)

Lemma written_write_all (cs : list Chunk) (r : Res) :
  written (write_all cs r) = (written r ++ cs)%list.
Proof.
  revert r. induction cs as [|c cs IH]; intros r; simpl.
  - symmetry. apply app_nil_r.
  - unfold write_all in IH. rewrite IH. simpl. rewrite <- app_assoc. reflexivity.
Qed.

Lemma headersSent_write_all (cs : list Chunk) (r : Res) :
  headersSent r = true -> headersSent (write_all cs r) = true.
Proof.
  revert r. induction cs as [|c cs IH]; intros r Hr; simpl; [assumption|].
  apply IH. reflexivity.
Qed.

Lemma streamed_steps_frames (new : list JVal) (rest : list Chunk) :
  Forall (fun p => prop p "type" = JStr "step") new ->
  streamed_steps (map sseEvent new ++ rest) = (new ++ streamed_steps rest)%list.
Proof.
  induction 1 as [|p new Hp _ IH]; simpl; [reflexivity|].
  rewrite Hp. simpl. f_equal. assumption.
Qed.

Section Executor.

Context `{Engine}.

Lemma step_recover_fulfilled (pg : Page) (e : JsError) (w : World) :
  exists w' shot,
    step_recover pg e w = (w', Fulfilled (shot, JStr (error_text e))).
Proof.
  unfold step_recover, try_catch, capture, bind, ret.
  destruct (page_screenshot pg w) as [w' [buf|e']]; eauto.
Qed.

Lemma step_body_fulfilled (pg : Page) (action step : JVal) (w w' : World)
    (r : JVal * JVal) :
  step_body pg action step w = (w', Fulfilled r) -> snd r = JNull.
Proof.
  unfold step_body, capture, bind, ret.
  destruct (step_action pg action step w) as [w1 [[]|e1]]; [|discriminate].
  destruct (page_screenshot pg w1) as [w2 [buf|e2]]; [|discriminate].
  intros [= _ <-]. reflexivity.
Qed.

(** The inner [try]/[catch] never throws: either the [try] block ran to
    its end and [error] is still [null], or it threw [e] and [error] is
    the text of [e]. *)
Lemma step_try_cases (pg : Page) (action step : JVal) (w : World) :
  (exists w' shot,
     step_body pg action step w = (w', Fulfilled (shot, JNull))
     /\ step_try pg action step w = (w', Fulfilled (shot, JNull)))
  \/ (exists w1 e w' shot,
        step_body pg action step w = (w1, Rejected e)
        /\ step_try pg action step w
           = (w', Fulfilled (shot, JStr (error_text e)))).
Proof.
  unfold step_try, try_catch.
  destruct (step_body pg action step w) as [w1 [[shot err]|e]] eqn:Hbody.
  - left. apply step_body_fulfilled in Hbody as Herr. simpl in Herr. subst err.
    eauto.
  - right. destruct (step_recover_fulfilled pg e w1) as (w' & shot & Hrec).
    exists w1, e, w', shot. auto.
Qed.

Lemma step_loop_app (stream : bool) (pg : Page) (pre post : list JVal) :
  forall (i : nat) (rs : RunState) (w : World),
    step_loop stream pg i (pre ++ post) rs w
    = match step_loop stream pg i pre rs w with
      | (w', rs', None) => step_loop stream pg (i + length pre) post rs' w'
      | stopped => stopped
      end.
Proof.
  induction pre as [|step pre IH]; intros i rs w; simpl.
  - rewrite Nat.add_0_r. reflexivity.
  - destruct (get_prop step "action") as [a|e]; [|reflexivity].
    destruct (step_try pg (js_or a (JStr "snapshot")) step w)
      as [w' [[shot err]|e]]; [|reflexivity].
    rewrite IH. rewrite Nat.add_succ_r. reflexivity.
Qed.

Lemma results_emitStep (stream : bool) (payload : JVal) (rs : RunState) :
  results (emitStep stream payload rs) = (results rs ++ [payload])%list.
Proof. unfold emitStep. destruct (stream && headersSent (res rs)); reflexivity. Qed.

(** What the loop leaves behind, whether or not an error escaped it. *)
Lemma step_loop_spec (stream : bool) (pg : Page) (steps : list JVal) :
  forall (i : nat) (rs : RunState) (w w' : World) (rs' : RunState)
         (err : option JsError),
    step_loop stream pg i steps rs w = (w', rs', err) ->
    exists new : list JVal,
      results rs' = (results rs ++ new)%list
      /\ res rs' = (if stream && headersSent (res rs)
                    then write_all (map sseEvent new) (res rs)
                    else res rs)
      /\ map step_index new = map index_value (seq i (length new))
      /\ map (fun p => prop p "action") new
         = map action_of (take (length new) steps)
      /\ Forall (fun p => prop p "type" = JStr "step") new
      /\ (length new <= length steps)%nat
      /\ (err = None -> length new = length steps)
      /\ (Forall (fun s => nullish s = false) steps -> err = None).
Proof.
  induction steps as [|step rest IH]; intros i rs w w' rs' err Hloop;
    simpl in Hloop.
  - injection Hloop as <- <- <-. exists []. simpl.
    rewrite app_nil_r. destruct (stream && headersSent (res rs)); auto 10.
  - unfold get_prop in Hloop. destruct (nullish step) eqn:Hnull.
    + injection Hloop as <- <- <-. exists []. simpl.
      rewrite app_nil_r.
      destruct (stream && headersSent (res rs));
        (repeat split; auto with lia; try discriminate;
         intros Hall; inversion Hall; congruence).
    + fold (action_of step) in Hloop.
      destruct (step_try_cases pg (action_of step) step w)
        as [(w1 & shot & _ & Htry) | (w0 & e & w1 & shot & _ & Htry)];
        rewrite Htry in Hloop;
        apply IH in Hloop as (new & Hres & Hout & Hidx & Hact & Hty & Hle & Hnone & Hall);
        (eexists (_ :: new); rewrite results_emitStep in Hres;
         split; [rewrite Hres, <- app_assoc; reflexivity|];
         split; [rewrite Hout; unfold emitStep; destruct stream; simpl;
                 [destruct (headersSent (res rs)) eqn:Hsent; simpl;
                  rewrite ?Hsent; reflexivity | reflexivity]|];
         split; [simpl; f_equal; exact Hidx|];
         split; [simpl; f_equal; exact Hact|];
         split; [constructor; [reflexivity | exact Hty]|];
         split; [simpl; lia|];
         split; [intros Herr; simpl; f_equal; auto|];
         intros Hsteps; inversion Hsteps; auto).
Qed.

(** The results and the engine do not depend on the delivery mode. *)
Lemma step_loop_mode (stream1 stream2 : bool) (pg : Page) (steps : list JVal) :
  forall (i : nat) (rs1 rs2 : RunState) (w : World),
    results rs1 = results rs2 ->
    fst (fst (step_loop stream1 pg i steps rs1 w))
    = fst (fst (step_loop stream2 pg i steps rs2 w))
    /\ results (snd (fst (step_loop stream1 pg i steps rs1 w)))
       = results (snd (fst (step_loop stream2 pg i steps rs2 w)))
    /\ snd (step_loop stream1 pg i steps rs1 w)
       = snd (step_loop stream2 pg i steps rs2 w).
Proof.
  induction steps as [|step rest IH]; intros i rs1 rs2 w Hrs; simpl.
  - auto.
  - destruct (get_prop step "action") as [a|e]; simpl; [|auto].
    destruct (step_try pg (js_or a (JStr "snapshot")) step w)
      as [w' [[shot err]|e]]; simpl; [|auto].
    apply IH. rewrite !results_emitStep, Hrs. reflexivity.
Qed.

End Executor.

(** ** Properties of [POST /run] *)

Section Run.

Context `{Engine}.

Variable SECRET : option string.

Lemma run_valid (req : Request) (srv : Server) (items : list JVal) :
  fst (checkAuth SECRET req fresh_res) = true ->
  request_steps req = JArr items ->
  (1 <= length items <= 15)%nat ->
  run SECRET req srv
  = run_try (wants_stream req) items (request_sessionId req) fresh_res srv.
Proof.
  intros Hauth Hsteps [Hlo Hhi]. apply checkAuth_passed in Hauth.
  unfold run, request_steps, request_sessionId in *. rewrite Hauth, Hsteps.
  destruct items as [|x items]; [simpl in Hlo; lia|].
  destruct (15 <? length (x :: items))%nat eqn:Hlen; [|reflexivity].
  apply Nat.ltb_lt in Hlen. lia.
Qed.

(** The [try] block once the session is there: the loop, then the final
    message of either path. *)
Lemma run_try_resolved (stream : bool) (items : list JVal)
    (rsid : option string) (srv srv1 : Server) (sid : string) (pg : Page)
    (w : World) (rs : RunState) (err : option JsError) :
  getOrCreateSession (requested rsid) srv = (srv1, Fulfilled (sid, pg)) ->
  step_loop stream pg 0 items (loop_start stream) (world srv1) = (w, rs, err) ->
  run_try stream items rsid fresh_res srv
  = (mkServer (sessions srv1) w,
     match err with
     | Some e => run_catch stream e rs (Some sid)
     | None =>
         if stream
         then res_end (res_write
                (sseEvent (done_ok (results rs) (Some sid))) (res rs))
         else res_json (run_ok (results rs) (Some sid)) (res rs)
     end).
Proof.
  intros Hsess Hloop. unfold run_try. rewrite Hsess.
  unfold loop_start, stream_res in Hloop.
  destruct stream; rewrite Hloop; destruct err; reflexivity.
Qed.

Lemma run_try_launch_failed (stream : bool) (items : list JVal)
    (rsid : option string) (srv srv1 : Server) (e : JsError) :
  getOrCreateSession (requested rsid) srv = (srv1, Rejected e) ->
  run_try stream items rsid fresh_res srv
  = (srv1, run_catch stream e (loop_start stream) None).
Proof.
  intros Hsess. unfold run_try. rewrite Hsess.
  destruct stream; reflexivity.
Qed.

(** The state of the response when the loop stops. *)
Lemma loop_response (stream : bool) (pg : Page) (items : list JVal)
    (w0 w : World) (rs : RunState) (err : option JsError) :
  step_loop stream pg 0 items (loop_start stream) w0 = (w, rs, err) ->
  res rs = (if stream then write_all (map sseEvent (results rs)) stream_res
            else fresh_res)
  /\ map step_index (results rs)
     = map index_value (seq 0 (length (results rs)))
  /\ map (fun p => prop p "action") (results rs)
     = map action_of (take (length (results rs)) items)
  /\ Forall (fun p => prop p "type" = JStr "step") (results rs)
  /\ (length (results rs) <= length items)%nat
  /\ (err = None <-> length (results rs) = length items)
  /\ (Forall (fun s => nullish s = false) items -> err = None).
Proof.
  intros Hloop.
  pose proof Hloop as Hloop'.
  apply step_loop_spec in Hloop
    as (new & Hres & Hout & Hidx & Hact & Hty & Hle & Hnone & Hall).
  simpl in Hres. subst new.
  split; [rewrite Hout; destruct stream; reflexivity|].
  repeat (split; [assumption|]).
  split; [|assumption].
  split; [assumption|].
  intros Hlen. destruct err as [e|]; [exfalso|reflexivity].
  (* an escaped error leaves fewer results than steps *)
  clear Hnone Hall Hout Hidx Hact Hty Hle.
  assert (Hshort : forall steps i rs0 w1 w2 rs2 e2,
    step_loop stream pg i steps rs0 w1 = (w2, rs2, Some e2) ->
    (length (results rs2) < length (results rs0) + length steps)%nat).
  { induction steps as [|step rest IH]; intros i rs0 w1 w2 rs2 e2 Hl;
      simpl in Hl; [discriminate|].
    destruct (get_prop step "action") as [a|e1].
    - destruct (step_try pg (js_or a (JStr "snapshot")) step w1)
        as [w' [[shot er]|e1]].
      + apply IH in Hl. rewrite results_emitStep, length_app in Hl.
        simpl in *. lia.
      + injection Hl as <- <- <-. simpl. lia.
    - injection Hl as <- <- <-. simpl. lia. }
  apply Hshort in Hloop'. simpl in Hloop'. lia.
Qed.

Lemma run_success (req : Request) (srv srv1 : Server) (items : list JVal)
    (sid : string) (pg : Page) (w : World) (rs : RunState) :
  fst (checkAuth SECRET req fresh_res) = true ->
  request_steps req = JArr items ->
  (1 <= length items <= 15)%nat ->
  getOrCreateSession (requested (request_sessionId req)) srv
  = (srv1, Fulfilled (sid, pg)) ->
  step_loop (wants_stream req) pg 0 items (loop_start (wants_stream req))
    (world srv1) = (w, rs, None) ->
  fst (run SECRET req srv) = mkServer (sessions srv1) w
  /\ statusCode (snd (run SECRET req srv)) = 200%nat
  /\ ended (snd (run SECRET req srv)) = true
  /\ written (snd (run SECRET req srv))
     = success_chunks (wants_stream req) (results rs) sid.
Proof.
  intros Hauth Hsteps Hlen Hsess Hloop.
  rewrite (run_valid req srv items Hauth Hsteps Hlen).
  rewrite (run_try_resolved _ _ _ _ _ _ _ _ _ _ Hsess Hloop).
  apply loop_response in Hloop as (Hres & _).
  unfold success_chunks. rewrite Hres.
  destruct (wants_stream req); simpl.
  - repeat split.
    + clear. generalize (results rs) as l.
      intros l. change 200%nat with (statusCode stream_res).
      generalize stream_res as r. induction l as [|c l IH]; intros r;
        [reflexivity|]. simpl. rewrite IH. reflexivity.
    + rewrite written_write_all. reflexivity.
  - repeat split.
Qed.

End Run.

Section RunClaims.

Context `{Engine}.

Variable SECRET : option string.

(** C1 (as the code has it). For a [/run] request that passed the auth
    gate, whose [steps] is an array of N items with 1 <= N <= 15, none of
    them [null], and whose session was resolved, the loop produces exactly
    N results: the i-th has [stepIndex] i and the action name of the i-th
    input step, whether or not that step succeeded; the response is a 200
    carrying them in that order. *)
Theorem run_one_result_per_step (req : Request) (srv srv1 : Server)
    (items : list JVal) (sid : string) (pg : Page) :
  fst (checkAuth SECRET req fresh_res) = true ->
  request_steps req = JArr items ->
  (1 <= length items <= 15)%nat ->
  Forall (fun s => nullish s = false) items ->
  getOrCreateSession (requested (request_sessionId req)) srv
  = (srv1, Fulfilled (sid, pg)) ->
  exists results : list JVal,
    statusCode (snd (run SECRET req srv)) = 200%nat
    /\ written (snd (run SECRET req srv))
       = success_chunks (wants_stream req) results sid
    /\ length results = length items
    /\ map step_index results = map index_value (seq 0 (length items))
    /\ map (fun p => prop p "action") results = map action_of items.
Proof.
  intros Hauth Hsteps Hlen Hall Hsess.
  destruct (step_loop (wants_stream req) pg 0 items
              (loop_start (wants_stream req)) (world srv1))
    as [[w rs] err] eqn:Hloop.
  pose proof (loop_response _ _ _ _ _ _ _ Hloop)
    as (_ & Hidx & Hact & _ & _ & Hnone & Hok).
  specialize (Hok Hall). subst err.
  assert (Hn : length (results rs) = length items) by (apply Hnone; reflexivity).
  destruct (run_success SECRET req srv srv1 items sid pg w rs
              Hauth Hsteps Hlen Hsess Hloop) as (_ & Hcode & _ & Hout).
  exists (results rs). rewrite Hn in Hidx, Hact.
  rewrite firstn_all in Hact. auto.
Qed.

(** The result of one step in the response. For a request past the
    gates whose steps are all non-null and whose session was resolved,
    the run answers 200 with one result per step, indexed in order, and
    the result at a step's index is the payload of that step's inner
    [try]/[catch], run in the world the steps before it left. *)
Lemma run_step_recorded (req : Request) (srv srv1 : Server) (sid : string)
    (pg : Page) (pre post : list JVal) (step : JVal) :
  let stream := wants_stream req in
  let items := (pre ++ step :: post)%list in
  let wi := fst (fst (step_loop stream pg 0 pre (loop_start stream)
                        (world srv1))) in
  fst (checkAuth SECRET req fresh_res) = true ->
  request_steps req = JArr items ->
  (1 <= length items <= 15)%nat ->
  Forall (fun s => nullish s = false) items ->
  getOrCreateSession (requested (request_sessionId req)) srv
  = (srv1, Fulfilled (sid, pg)) ->
  exists (results : list JVal) (w' : World) (shot err : JVal),
    step_try pg (action_of step) step wi = (w', Fulfilled (shot, err))
    /\ statusCode (snd (run SECRET req srv)) = 200%nat
    /\ written (snd (run SECRET req srv)) = success_chunks stream results sid
    /\ length results = length items
    /\ map step_index results = map index_value (seq 0 (length items))
    /\ results !! length pre
       = Some (step_payload (length pre) (action_of step) shot err).
Proof.
  intros stream items wi Hauth Hsteps Hlen Hall Hsess.
  destruct (step_loop stream pg 0 items (loop_start stream) (world srv1))
    as [[w rs] err0] eqn:Hloop.
  pose proof (loop_response _ _ _ _ _ _ _ Hloop)
    as (_ & Hidx & _ & _ & _ & Hnone & Hok).
  specialize (Hok Hall). subst err0.
  assert (Hn : length (results rs) = length items) by (apply Hnone; reflexivity).
  destruct (run_success SECRET req srv srv1 items sid pg w rs
              Hauth Hsteps Hlen Hsess Hloop) as (_ & Hcode & _ & Hout).
  (* the loop up to the step *)
  destruct (step_loop stream pg 0 pre (loop_start stream) (world srv1))
    as [[wp rsi] errp] eqn:Hpre.
  pose proof (loop_response _ _ _ _ _ _ _ Hpre)
    as (_ & _ & _ & _ & _ & Hnpre & Hokpre).
  unfold items in Hall. apply Forall_app in Hall as [Hallpre Hallrest].
  specialize (Hokpre Hallpre). subst errp.
  assert (Hlpre : length (results rsi) = length pre)
    by (apply Hnpre; reflexivity).
  inversion Hallrest as [|? ? Hstep _]; subst.
  unfold items in Hloop. rewrite step_loop_app, Hpre in Hloop.
  simpl in Hloop. unfold get_prop in Hloop. rewrite Hstep in Hloop.
  fold (action_of step) in Hloop.
  assert (Hwi : wi = wp) by (unfold wi; reflexivity).
  destruct (step_try_cases pg (action_of step) step wp)
    as [(w' & shot & _ & Htry) | (w0 & e' & w' & shot & _ & Htry)];
    rewrite Htry in Hloop;
    apply step_loop_spec in Hloop as (new & Hres & _);
    rewrite results_emitStep in Hres;
    (exists (results rs), w', shot); eexists;
    (split; [rewrite Hwi; exact Htry|]);
    (split; [exact Hcode|]); (split; [exact Hout|]);
    (split; [exact Hn|]);
    (split; [rewrite <- Hn; exact Hidx|]);
    rewrite Hres, <- app_assoc; apply list_lookup_middle; symmetry;
    exact Hlpre.
Qed.

(** C2. For a request past the gates whose steps are all non-null and
    whose session was resolved, so that no error escapes the loop, a step
    whose [try] block throws [e] (a validation error or an engine error)
    does not stop the run: the response is a 200 with [success: true] and
    one result per step, indexed 0, 1, 2, ... to the last step, the steps
    after the failed one included, and the failed step's result sits at
    its own index with [success: false] and the non-empty text of [e] as
    [error]. *)
Theorem failed_step_is_recorded_and_run_goes_on (req : Request)
    (srv srv1 : Server) (sid : string) (pg : Page)
    (pre post : list JVal) (step : JVal) (w1 : World) (e : JsError) :
  let stream := wants_stream req in
  let items := (pre ++ step :: post)%list in
  let wi := fst (fst (step_loop stream pg 0 pre (loop_start stream)
                        (world srv1))) in
  fst (checkAuth SECRET req fresh_res) = true ->
  request_steps req = JArr items ->
  (1 <= length items <= 15)%nat ->
  Forall (fun s => nullish s = false) items ->
  getOrCreateSession (requested (request_sessionId req)) srv
  = (srv1, Fulfilled (sid, pg)) ->
  step_body pg (action_of step) step wi = (w1, Rejected e) ->
  exists results : list JVal,
    statusCode (snd (run SECRET req srv)) = 200%nat
    /\ written (snd (run SECRET req srv)) = success_chunks stream results sid
    /\ length results = length items
    /\ map step_index results = map index_value (seq 0 (length items))
    /\ exists payload : JVal,
         results !! length pre = Some payload
         /\ step_index payload = index_value (length pre)
         /\ prop payload "success" = JBool false
         /\ prop payload "error" = JStr (error_text e)
         /\ error_text e <> "".
Proof.
  intros stream items wi Hauth Hsteps Hlen Hall Hsess Hbody.
  destruct (run_step_recorded req srv srv1 sid pg pre post step
              Hauth Hsteps Hlen Hall Hsess)
    as (results & w' & shot & err & Htry & Hcode & Hout & Hn & Hidx & Hat).
  fold stream in Htry, Hout. fold wi in Htry.
  assert (Herr : err = JStr (error_text e)).
  { destruct (step_try_cases pg (action_of step) step wi)
      as [(w2 & shot2 & Hb & _) | (w0 & e' & w2 & shot2 & Hb & Htry2)];
      [congruence|].
    rewrite Hbody in Hb. injection Hb as <- <-.
    rewrite Htry in Htry2. congruence. }
  subst err.
  exists results.
  split; [exact Hcode|]. split; [exact Hout|]. split; [exact Hn|].
  split; [exact Hidx|].
  eexists. split; [exact Hat|]. split; [apply payload_index|].
  split; [rewrite payload_success, error_text_truthy; reflexivity|].
  split; [|apply error_text_nonempty].
  rewrite payload_error. unfold js_or. rewrite error_text_truthy. reflexivity.
Qed.


(** C8. Two [/run] requests with the same credentials and body, one
    streaming and one buffered, served from the same state, report the
    same sequence of step results: the step events written to the stream
    are, in order, the [steps] array of the buffered response; and they
    leave the server in the same state. *)
Theorem delivery_modes_agree (streaming buffered : Request) (srv : Server) :
  authorization streaming = authorization buffered ->
  body streaming = body buffered ->
  wants_stream streaming = true ->
  wants_stream buffered = false ->
  streamed_steps (written (snd (run SECRET streaming srv)))
  = buffered_steps (written (snd (run SECRET buffered srv)))
  /\ fst (run SECRET streaming srv) = fst (run SECRET buffered srv).
Proof.
  intros Hauth Hbody Hs Hb.
  assert (Hgate : forall r, checkAuth SECRET streaming r = checkAuth SECRET buffered r)
    by (intros r; unfold checkAuth; rewrite Hauth; reflexivity).
  unfold run. rewrite Hgate, Hs, Hb, Hbody.
  destruct (checkAuth SECRET buffered fresh_res) as [[|] r] eqn:Hc.
  2:{ apply (f_equal fst) in Hc as Hf. simpl in Hf.
      apply checkAuth_failed in Hf. rewrite Hf in Hc. injection Hc as <-.
      split; reflexivity. }
  apply (f_equal fst) in Hc as Hf. simpl in Hf.
  apply checkAuth_passed in Hf. rewrite Hf in Hc. injection Hc as <-.
  destruct (prop (js_or (body buffered) (JObj [])) "steps")
    as [| | | | |[|x items]|]; try (split; reflexivity).
  destruct (15 <? length (x :: items))%nat; [split; reflexivity|].
  set (steps := x :: items).
  set (rsid := body_sessionId (js_or (body buffered) (JObj []))).
  destruct (getOrCreateSession (requested rsid) srv)
    as [srv1 [[sid pg]|e]] eqn:Hsess.
  - destruct (step_loop true pg 0 steps (loop_start true) (world srv1))
      as [[w1 rs1] e1] eqn:Hl1.
    destruct (step_loop false pg 0 steps (loop_start false) (world srv1))
      as [[w2 rs2] e2] eqn:Hl2.
    rewrite (run_try_resolved _ _ _ _ _ _ _ _ _ _ Hsess Hl1).
    rewrite (run_try_resolved _ _ _ _ _ _ _ _ _ _ Hsess Hl2).
    pose proof (step_loop_mode true false pg steps 0
                  (loop_start true) (loop_start false) (world srv1) eq_refl)
      as (Hw & Hr & He).
    rewrite Hl1, Hl2 in Hw, Hr, He. simpl in Hw, Hr, He. subst w2 e2.
    pose proof (loop_response _ _ _ _ _ _ _ Hl1) as (Hres1 & _ & _ & Hty & _).
    pose proof (loop_response _ _ _ _ _ _ _ Hl2) as (Hres2 & _).
    assert (Hsent : headersSent (res rs1) = true)
      by (rewrite Hres1; apply headersSent_write_all; reflexivity).
    assert (Hwr : written (res rs1) = map sseEvent (results rs1))
      by (rewrite Hres1, written_write_all; reflexivity).
    split; [|reflexivity].
    destruct e1 as [e|]; simpl; unfold run_catch; rewrite ?Hsent, Hres2; simpl;
      rewrite Hwr, (streamed_steps_frames _ _ Hty); simpl;
      rewrite app_nil_r; first [exact Hr | symmetry; exact Hr].
  - rewrite !(run_try_launch_failed _ _ _ _ _ _ Hsess). split; reflexivity.
Qed.

End RunClaims.

(** ** Properties of single steps *)

Section Steps.

Context `{Engine}.

Lemma step_action_falls_through (pg : Page) (action step : JVal) :
  is_str action "navigate" = false ->
  is_str action "wait" = false ->
  is_str action "click" = false ->
  is_str action "fill" = false ->
  step_action pg action step = ret tt.
Proof. unfold step_action. intros -> -> -> ->. reflexivity. Qed.

Lemma unknown_action_not_dispatched (s name : string) :
  known_action s = false ->
  known_action name = true ->
  name <> "snapshot" ->
  is_str (js_or (JStr s) (JStr "snapshot")) name = false.
Proof.
  unfold js_or, truthy. intros Hs Hname Hsnap.
  destruct (String.eqb_spec s ""); cbn [negb]; unfold is_str;
    apply String.eqb_neq.
  - intros Heq. apply Hsnap. symmetry. assumption.
  - intros ->. rewrite Hs in Hname. discriminate.
Qed.

Lemma step_try_snapshot (pg : Page) (action step : JVal) (w w' : World)
    (buf : ShotData) :
  step_action pg action step = ret tt ->
  page_screenshot pg w = (w', Fulfilled buf) ->
  step_try pg action step w = (w', Fulfilled (shot_base64 buf, JNull)).
Proof.
  intros Hact Hshot.
  unfold step_try, try_catch, step_body, capture, bind.
  rewrite Hact. unfold ret. rewrite Hshot. reflexivity.
Qed.

Lemma step_body_snapshot (pg : Page) (action step : JVal) (w : World) :
  step_action pg action step = ret tt ->
  step_body pg action step w
  = match page_screenshot pg w with
    | (w', Fulfilled buf) => (w', Fulfilled (shot_base64 buf, JNull))
    | (w', Rejected e) => (w', Rejected e)
    end.
Proof.
  intros Hact. unfold step_body, capture, bind. rewrite Hact. unfold ret.
  destruct (page_screenshot pg w) as [w' [buf|e]]; reflexivity.
Qed.

Lemma payload_action (i : nat) (action shot error : JVal) :
  prop (step_payload i action shot error) "action" = action.
Proof. reflexivity. Qed.

(** C10 (as the code has it). In a run past the gates with non-null
    steps and a resolved session, a step without [action], or whose
    [action] is a string other than navigate, wait, click, fill and
    snapshot, is not rejected: it passes every branch of the dispatch
    untouched and runs exactly as an explicit snapshot step does, the
    screenshot being its only engine call. Its result is in the 200
    response at its own index, under the action name [snapshot] when the
    action was missing, with [success: true] and no error when the
    screenshot is taken, and with [success: false] and the engine's error
    text when the screenshot itself fails. *)
Theorem unknown_action_runs_as_snapshot (SECRET : option string)
    (req : Request) (srv srv1 : Server) (sid : string) (pg : Page)
    (pre post : list JVal) (step : JVal) :
  let stream := wants_stream req in
  let items := (pre ++ step :: post)%list in
  let wi := fst (fst (step_loop stream pg 0 pre (loop_start stream)
                        (world srv1))) in
  fst (checkAuth SECRET req fresh_res) = true ->
  request_steps req = JArr items ->
  (1 <= length items <= 15)%nat ->
  Forall (fun s => nullish s = false) items ->
  getOrCreateSession (requested (request_sessionId req)) srv
  = (srv1, Fulfilled (sid, pg)) ->
  prop step "action" = JUndef
  \/ (exists s : string, prop step "action" = JStr s /\ known_action s = false) ->
  step_action pg (action_of step) step = ret tt
  /\ step_try pg (action_of step) step wi
     = step_try pg (JStr "snapshot") (JObj [("action", JStr "snapshot")]) wi
  /\ (prop step "action" = JUndef -> action_of step = JStr "snapshot")
  /\ exists (results : list JVal) (payload : JVal),
       statusCode (snd (run SECRET req srv)) = 200%nat
       /\ written (snd (run SECRET req srv)) = success_chunks stream results sid
       /\ length results = length items
       /\ results !! length pre = Some payload
       /\ step_index payload = index_value (length pre)
       /\ prop payload "action" = action_of step
       /\ (forall (w' : World) (buf : ShotData),
             page_screenshot pg wi = (w', Fulfilled buf) ->
             payload = step_payload (length pre) (action_of step)
                         (shot_base64 buf) JNull
             /\ prop payload "success" = JBool true
             /\ prop payload "error" = JUndef)
       /\ (forall (w' : World) (e : JsError),
             page_screenshot pg wi = (w', Rejected e) ->
             prop payload "success" = JBool false
             /\ prop payload "error" = JStr (error_text e)).
Proof.
  intros stream items wi Hauth Hsteps Hlen Hall Hsess Ha.
  assert (Hfall : step_action pg (action_of step) step = ret tt).
  { apply step_action_falls_through; unfold action_of;
      destruct Ha as [-> | (s & -> & Hs)]; try reflexivity;
      apply unknown_action_not_dispatched; auto; discriminate. }
  assert (Hsnap : step_action pg (JStr "snapshot")
                    (JObj [("action", JStr "snapshot")]) = ret tt)
    by reflexivity.
  split; [exact Hfall|]. split.
  { unfold step_try, try_catch.
    rewrite (step_body_snapshot _ _ _ wi Hfall).
    rewrite (step_body_snapshot _ _ _ wi Hsnap). reflexivity. }
  split; [intros Hundef; unfold action_of; rewrite Hundef; reflexivity|].
  destruct (run_step_recorded SECRET req srv srv1 sid pg pre post step
              Hauth Hsteps Hlen Hall Hsess)
    as (results & w1 & shot & err & Htry & Hcode & Hout & Hn & _ & Hat).
  fold stream in Htry, Hout. fold wi in Htry.
  exists results, (step_payload (length pre) (action_of step) shot err).
  split; [exact Hcode|]. split; [exact Hout|]. split; [exact Hn|].
  split; [exact Hat|]. split; [apply payload_index|].
  split; [apply payload_action|]. split.
  - intros w' buf Hshot.
    rewrite (step_try_snapshot pg _ step wi w' buf Hfall Hshot) in Htry.
    injection Htry as _ <- <-. repeat split.
  - intros w' e Hshot.
    unfold step_try, try_catch in Htry.
    rewrite (step_body_snapshot _ _ _ wi Hfall), Hshot in Htry.
    destruct (step_recover_fulfilled pg e w') as (w2 & shot2 & Hrec).
    rewrite Hrec in Htry. injection Htry as _ _ <-.
    rewrite payload_success, payload_error, error_text_truthy.
    unfold js_or. rewrite error_text_truthy. split; reflexivity.
Qed.


End Steps.

(** ** Properties of [lastUsedAt] *)

Section LastUsed.

Context `{Engine}.

Variable SECRET : option string.

Lemma getOrCreateSession_existing (id : string) (srv : Server) (entry : Session) :
  id <> "" ->
  sessions srv !! id = Some entry ->
  getOrCreateSession (requested (Some id)) srv
  = (mkServer (<[id := touch (date_now (world srv)) entry]> (sessions srv))
       (world srv),
     Fulfilled (id, page entry)).
Proof.
  intros Hid Hentry. unfold requested, getOrCreateSession. simpl.
  destruct (String.eqb_spec id ""); [contradiction|]. simpl.
  destruct (String.eqb_spec id ""); [contradiction|]. simpl.
  rewrite Hentry. reflexivity.
Qed.

Lemma run_try_sessions (stream : bool) (items : list JVal)
    (rsid : option string) (res0 : Res) (srv srv1 : Server)
    (r : Result (string * Page)) :
  getOrCreateSession (requested rsid) srv = (srv1, r) ->
  sessions (fst (run_try stream items rsid res0 srv)) = sessions srv1.
Proof.
  intros Hsess. unfold run_try. rewrite Hsess.
  destruct r as [[sid pg]|e]; [|reflexivity].
  destruct (step_loop stream pg 0 items _ (world srv1)) as [[w rs] [e|]];
    reflexivity.
Qed.

Lemma get_screenshot_sessions (req : Request) (id : string) (srv : Server) :
  sessions (fst (get_screenshot SECRET req id srv)) = sessions srv.
Proof.
  unfold get_screenshot.
  destruct (checkAuth SECRET req fresh_res) as [[|] r]; [|reflexivity].
  destruct (sessions srv !! id) as [entry|]; [|reflexivity].
  destruct (respond _ r (world srv)) as [w r']. reflexivity.
Qed.

Lemma get_info_sessions (req : Request) (id : string) (srv : Server) :
  sessions (fst (get_info SECRET req id srv)) = sessions srv.
Proof.
  unfold get_info.
  destruct (checkAuth SECRET req fresh_res) as [[|] r]; [|reflexivity].
  destruct (sessions srv !! id) as [entry|]; [|reflexivity].
  destruct (respond _ r (world srv)) as [w r']. reflexivity.
Qed.

(** C4 (as the code has it). For a session the registry holds,
    [POST /session/:id/interact] and a [/run] that names the session set
    its [lastUsedAt] to the time the handler found it; the read-only
    [GET /session/:id/screenshot] and [GET /session/:id/info] leave the
    whole [sessions] map, [lastUsedAt] included, as it was. *)
Theorem lastUsedAt_refreshed_by_run_and_interact
    (run_req interact_req get_req : Request) (id : string) (srv : Server)
    (entry : Session) :
  sessions srv !! id = Some entry ->
  id <> "" ->
  fst (checkAuth SECRET run_req fresh_res) = true ->
  fst (checkAuth SECRET interact_req fresh_res) = true ->
  request_sessionId run_req = Some id ->
  valid_steps (request_steps run_req) = true ->
  sessions (fst (interact SECRET interact_req id srv)) !! id
  = Some (touch (date_now (world srv)) entry)
  /\ sessions (fst (run SECRET run_req srv)) !! id
     = Some (touch (date_now (world srv)) entry)
  /\ sessions (fst (get_screenshot SECRET get_req id srv)) = sessions srv
  /\ sessions (fst (get_info SECRET get_req id srv)) = sessions srv.
Proof.
  intros Hentry Hid Hrun Hint Hsid Hvalid.
  split; [|split; [|split]].
  - unfold interact. rewrite (checkAuth_passed _ _ _ Hint), Hentry.
    destruct (respond _ fresh_res (world srv)) as [w r']. simpl.
    apply lookup_insert_eq.
  - unfold valid_steps in Hvalid.
    destruct (request_steps run_req) as [| | | | |items|] eqn:Hsteps;
      try discriminate.
    apply andb_true_iff in Hvalid as [Hlo Hhi].
    apply Nat.leb_le in Hlo, Hhi.
    rewrite (run_valid SECRET run_req srv items Hrun Hsteps (conj Hlo Hhi)).
    rewrite Hsid.
    rewrite (run_try_sessions _ _ _ _ _ _ _
               (getOrCreateSession_existing id srv entry Hid Hentry)).
    simpl. apply lookup_insert_eq.
  - apply get_screenshot_sessions.
  - apply get_info_sessions.
Qed.

End LastUsed.

(** ** The handlers at work on the demo engine *)

Module Worked.

Import Demo.

#[local] Existing Instance demo.

(** The example scenario of the spec: the navigation succeeds, the click
    on [#missing] times out, and the run as a whole succeeds. *)
Example scenario_buffered :
  map (fun p => (step_index p, prop p "action", prop p "success", prop p "error"))
      (buffered_steps (written (snd (run None (post scenario) empty_server))))
  = [(JNum 0, JStr "navigate", JBool true, JUndef);
     (JNum 1, JStr "click", JBool false,
      JStr "Timeout 10000ms exceeded waiting for locator")].
Proof. vm_compute. reflexivity. Qed.

(** On the error path of a stream the only chunk is the [done] event. *)
Example stream_launch_failure :
  written (snd (run None (post_stream scenario) cold_server))
  = [sseEvent (done_failed "Failed to launch browser" [] None)].
Proof. vm_compute. reflexivity. Qed.

(** A validation failure is one step's result; the next step still runs.
    A step without [action] is reported as a snapshot. *)
Example validation_failure_then_snapshot :
  map (fun p => (step_index p, prop p "action", prop p "success", prop p "error"))
      (buffered_steps
         (written (snd (run None
                          (post (steps_body [JObj [("action", JStr "click")];
                                             no_action_step]))
                          empty_server))))
  = [(JNum 0, JStr "click", JBool false, JStr "selector required for click");
     (JNum 1, JStr "snapshot", JBool true, JUndef)].
Proof. vm_compute. reflexivity. Qed.

(** A page that is gone fails the snapshot itself, and the second
    screenshot of the [catch] block is given up silently. *)
Example closed_page_snapshot :
  step_try 0%nat (JStr "snapshot") (JObj []) w0
  = (mkWorld 1002 ["screenshot"; "screenshot"],
     Fulfilled (JNull, JStr "Target page has been closed")).
Proof. reflexivity. Qed.

(** An expired or unknown id makes [/run] start a session under that id. *)
Example run_creates_named_session :
  lastUsedAt <$> sessions
    (fst (run None (post (JObj [("sessionId", JStr "mine");
                                ("steps", JArr [JObj []])])) empty_server))
    !! "mine"
  = Some 1003%Z.
Proof. vm_compute. reflexivity. Qed.

(** C1, counterexample: a one-item step list holding [null] is accepted
    by the length check and the session is launched, yet the loop throws
    on [step.action] and the 500 response carries no result at all. *)
Lemma null_step_aborts_the_run :
  valid_steps (request_steps null_request) = true
  /\ snd (getOrCreateSession (requested (request_sessionId null_request))
            empty_server)
     = Fulfilled ("sess_rs_k3x9q2ab", 1%nat)
  /\ statusCode (snd (run None null_request empty_server)) = 500%nat
  /\ written (snd (run None null_request empty_server))
     = [JsonDoc (run_failed "Cannot read properties of null (reading 'action')"
                   [] (Some "sess_rs_k3x9q2ab"))]
  /\ length (buffered_steps (written (snd (run None null_request empty_server))))
     <> 1%nat.
Proof. vm_compute. repeat split; discriminate. Qed.

(** The example scenario has two steps, neither of them [null]. *)
Lemma run_one_result_per_step_witness :
  exists results : list JVal,
    statusCode (snd (run None (post scenario) empty_server)) = 200%nat
    /\ written (snd (run None (post scenario) empty_server))
       = success_chunks (wants_stream (post scenario)) results "sess_rs_k3x9q2ab"
    /\ length results = 2%nat
    /\ map step_index results = map index_value (seq 0 2)
    /\ map (fun p => prop p "action") results
       = map action_of [navigate_step "https://example.com"; click_step "#missing"].
Proof.
  apply (run_one_result_per_step None (post scenario) empty_server
           (fst (getOrCreateSession None empty_server))
           [navigate_step "https://example.com"; click_step "#missing"]
           "sess_rs_k3x9q2ab" 1%nat).
  - reflexivity.
  - reflexivity.
  - simpl. lia.
  - repeat constructor.
  - vm_compute. reflexivity.
Defined.

(** The click at index 1 times out and the snapshot after it still runs. *)
Lemma failed_step_is_recorded_and_run_goes_on_witness :
  exists results : list JVal,
    statusCode (snd (run None Samples.scenario_then_snapshot_request
                       empty_server)) = 200%nat
    /\ written (snd (run None Samples.scenario_then_snapshot_request
                       empty_server))
       = success_chunks false results "sess_rs_k3x9q2ab"
    /\ length results = 3%nat
    /\ map step_index results = map index_value (seq 0 3)
    /\ exists payload : JVal,
         results !! 1%nat = Some payload
         /\ step_index payload = index_value 1
         /\ prop payload "success" = JBool false
         /\ prop payload "error"
            = JStr "Timeout 10000ms exceeded waiting for locator"
         /\ "Timeout 10000ms exceeded waiting for locator" <> "".
Proof.
  apply (failed_step_is_recorded_and_run_goes_on None
           Samples.scenario_then_snapshot_request empty_server
           (fst (getOrCreateSession None empty_server)) "sess_rs_k3x9q2ab"
           1%nat [navigate_step "https://example.com"] [JObj []]
           (click_step "#missing")
           (mkWorld 1006 ["launch"; "newContext"; "newPage"; "goto";
                          "screenshot"; "click"])
           (timeout_error "locator")).
  - reflexivity.
  - reflexivity.
  - simpl. lia.
  - repeat constructor.
  - vm_compute. reflexivity.
  - vm_compute. reflexivity.
Defined.

(** The whole response of that run: the failed click is followed by a
    successful snapshot. *)
Example run_goes_on_after_failed_click :
  map (fun p => (step_index p, prop p "action", prop p "success"))
      (buffered_steps
         (written (snd (run None Samples.scenario_then_snapshot_request
                          empty_server))))
  = [(JNum 0, JStr "navigate", JBool true);
     (JNum 1, JStr "click", JBool false);
     (JNum 2, JStr "snapshot", JBool true)].
Proof. vm_compute. reflexivity. Qed.



(** C4, counterexample: at time 1000 both read-only queries answer 200
    for session [s1] and leave its [lastUsedAt] at 0. *)
Lemma read_only_queries_keep_lastUsedAt :
  lastUsedAt <$> sessions s1_server !! "s1" = Some 0%Z
  /\ date_now (world s1_server) = 1000%Z
  /\ statusCode (snd (get_info None get "s1" s1_server)) = 200%nat
  /\ lastUsedAt <$> sessions (fst (get_info None get "s1" s1_server)) !! "s1"
     = Some 0%Z
  /\ statusCode (snd (get_screenshot None get "s1" s1_server)) = 200%nat
  /\ lastUsedAt <$> sessions (fst (get_screenshot None get "s1" s1_server)) !! "s1"
     = Some 0%Z.
Proof. vm_compute. repeat split. Qed.

(** Session [s1], idle since 0, touched at time 1000. *)
Lemma lastUsedAt_refreshed_by_run_and_interact_witness :
  sessions (fst (interact None press_enter "s1" s1_server)) !! "s1"
  = Some (touch 1000 s1_entry)
  /\ sessions (fst (run None reuse_s1 s1_server)) !! "s1"
     = Some (touch 1000 s1_entry)
  /\ sessions (fst (get_screenshot None get "s1" s1_server)) = sessions s1_server
  /\ sessions (fst (get_info None get "s1" s1_server)) = sessions s1_server.
Proof.
  apply (lastUsedAt_refreshed_by_run_and_interact None reuse_s1 press_enter get
           "s1" s1_server s1_entry).
  - vm_compute. reflexivity.
  - discriminate.
  - reflexivity.
  - reflexivity.
  - reflexivity.
  - reflexivity.
Defined.

(** An empty step list, sent while session [s1] is live. *)
Lemma run_rejects_invalid_steps_witness :
  fst (run None (post (steps_body [])) s1_server) = s1_server
  /\ (fst (checkAuth None (post (steps_body [])) fresh_res) = true ->
      exists msg : string,
        run None (post (steps_body [])) s1_server
        = (s1_server, res_json (error_body msg) (res_status 400 fresh_res))
        /\ (msg = "steps array required (1-15 items)" \/ msg = "max 15 steps")).
Proof.
  apply (run_rejects_invalid_steps None (post (steps_body [])) s1_server).
  reflexivity.
Defined.

(** A [/run] request without credentials, the secret being [s3cret]. *)
Lemma auth_gate_fails_closed_witness :
  handle (Some "s3cret") PostRun (post scenario) s1_server
  = (s1_server, res_json unauthorized (res_status 401 fresh_res))
  /\ statusCode (snd (handle (Some "s3cret") PostRun (post scenario) s1_server))
     = 401%nat
  /\ sessions (fst (handle (Some "s3cret") PostRun (post scenario) s1_server))
     = sessions s1_server
  /\ (forall (req' : Request) (res' : Res),
        authorization req' = Some ("Bearer " +:+ "s3cret") ->
        checkAuth (Some "s3cret") req' res' = (true, res'))
  /\ (forall (req' : Request) (res' : Res),
        checkAuth None req' res' = (true, res')).
Proof.
  apply (auth_gate_fails_closed "s3cret" PostRun (post scenario) s1_server).
  - discriminate.
  - reflexivity.
  - discriminate.
Defined.


(** The example scenario in both delivery modes. *)
Lemma delivery_modes_agree_witness :
  streamed_steps (written (snd (run None (post_stream scenario) empty_server)))
  = buffered_steps (written (snd (run None (post scenario) empty_server)))
  /\ fst (run None (post_stream scenario) empty_server)
     = fst (run None (post scenario) empty_server).
Proof.
  apply (delivery_modes_agree None (post_stream scenario) (post scenario)
           empty_server); reflexivity.
Defined.

(** [DELETE /session/abc] while only [s1] exists. *)
Lemma close_is_idempotent_witness :
  closeSession "abc" s1_server = s1_server
  /\ delete_session None get "abc" s1_server
     = (s1_server, res_json (JObj [("success", JBool true);
                                   ("message", JStr "Session closed")]) fresh_res)
  /\ statusCode (snd (delete_session None get "abc" s1_server)) = 200%nat
  /\ forall srv0 : Server,
       closeSession "abc" (closeSession "abc" srv0) = closeSession "abc" srv0.
Proof.
  apply (close_is_idempotent None get "abc" s1_server).
  - reflexivity.
  - discriminate.
  - vm_compute. reflexivity.
Defined.

(** C10, counterexample: the unknown action [hover], sent to a session
    whose page has been closed, is run as a snapshot and the snapshot
    fails, so its result has [success: false]. *)
Lemma unknown_action_on_closed_page_fails :
  prop hover_step "action" = JStr "hover"
  /\ known_action "hover" = false
  /\ statusCode (snd (run None Samples.hover_on_gone Samples.gone_server))
     = 200%nat
  /\ map (fun p => (prop p "action", prop p "success", prop p "error"))
       (buffered_steps
          (written (snd (run None Samples.hover_on_gone Samples.gone_server))))
     = [(JStr "hover", JBool false, JStr "Target page has been closed")].
Proof. vm_compute. repeat split. Qed.

(** The action [hover] as the first of two steps on a new session. *)
Lemma unknown_action_runs_as_snapshot_witness :
  step_action 1%nat (JStr "hover") hover_step = ret tt
  /\ exists payload : JVal,
       buffered_steps
         (written (snd (run None Samples.hover_then_click_request empty_server)))
       !! 0%nat = Some payload
       /\ length (buffered_steps
                    (written (snd (run None Samples.hover_then_click_request
                                     empty_server)))) = 2%nat
       /\ prop payload "action" = JStr "hover"
       /\ prop payload "success" = JBool true
       /\ prop payload "error" = JUndef.
Proof.
  destruct (unknown_action_runs_as_snapshot None
              Samples.hover_then_click_request empty_server
              (fst (getOrCreateSession None empty_server)) "sess_rs_k3x9q2ab"
              1%nat [] [click_step "#go"] hover_step)
    as (Hfall & _ & _ & results & payload & _ & Hout & Hn & Hat & _ & Hact
        & Hok & _).
  - reflexivity.
  - reflexivity.
  - simpl. lia.
  - repeat constructor.
  - vm_compute. reflexivity.
  - right. exists "hover". split; reflexivity.
  - split; [exact Hfall|]. exists payload.
    rewrite Hout. simpl.
    destruct (Hok (mkWorld 1004 ["launch"; "newContext"; "newPage"; "screenshot"])
                (ShotBuffer "iVBORw0KGgo=")) as (_ & Hsuccess & Herror);
      [vm_compute; reflexivity|].
    repeat split; assumption.
Defined.

End Worked.

(** ** Properties of the log *)

Lemma log_push_window (e : JVal) (logEntries : list JVal) :
  (length logEntries <= MAX_LOG_ENTRIES)%nat ->
  log_push e logEntries
  = skipn (length (logEntries ++ [e]) - MAX_LOG_ENTRIES) (logEntries ++ [e]).
Proof.
  intros Hlen. unfold log_push. rewrite length_app. simpl.
  destruct (MAX_LOG_ENTRIES <? length logEntries + 1)%nat eqn:Hfull.
  - apply Nat.ltb_lt in Hfull.
    replace (length logEntries + 1 - MAX_LOG_ENTRIES)%nat with 1%nat by lia.
    destruct (logEntries ++ [e])%list; reflexivity.
  - apply Nat.ltb_ge in Hfull.
    replace (length logEntries + 1 - MAX_LOG_ENTRIES)%nat with 0%nat by lia.
    reflexivity.
Qed.

Lemma log_push_length (e : JVal) (logEntries : list JVal) :
  (length logEntries <= MAX_LOG_ENTRIES)%nat ->
  (length (log_push e logEntries) <= MAX_LOG_ENTRIES)%nat.
Proof.
  intros Hlen. rewrite log_push_window by assumption.
  rewrite length_skipn, length_app. simpl. lia.
Qed.

Lemma log_pushes_window (es logEntries : list JVal) :
  (length logEntries <= MAX_LOG_ENTRIES)%nat ->
  log_pushes es logEntries
  = skipn (length (logEntries ++ es) - MAX_LOG_ENTRIES) (logEntries ++ es).
Proof.
  revert logEntries. induction es as [|e es IH]; intros acc Hlen.
  - simpl. rewrite app_nil_r.
    replace (length acc - MAX_LOG_ENTRIES)%nat with 0%nat by lia. reflexivity.
  - change (log_pushes (e :: es) acc) with (log_pushes es (log_push e acc)).
    rewrite IH by (apply log_push_length; assumption).
    rewrite log_push_window by assumption.
    rewrite !length_app, length_skipn, length_app. simpl.
    destruct (Nat.le_gt_cases (length acc + 1) MAX_LOG_ENTRIES) as [Hroom|Hfull].
    + replace (length acc + 1 - MAX_LOG_ENTRIES)%nat with 0%nat by lia.
      rewrite skipn_O, <- app_assoc. simpl. f_equal. lia.
    + assert (Hacc : length acc = MAX_LOG_ENTRIES) by lia.
      replace (length acc + 1 - MAX_LOG_ENTRIES)%nat with 1%nat by lia.
      destruct acc as [|a acc]; [discriminate|].
      change (skipn 1 ((a :: acc) ++ [e])) with (acc ++ [e])%list.
      rewrite <- app_assoc.
      replace (length (a :: acc) + 1 - 1 + length es - MAX_LOG_ENTRIES)%nat
        with (length es) by lia.
      replace (length (a :: acc) + S (length es) - MAX_LOG_ENTRIES)%nat
        with (S (length es)) by lia.
      reflexivity.
Qed.

(** X1. Starting from an empty log, after any number of [log] calls
    [logEntries] holds the entries of the last 100 calls (all of them
    when there were fewer), oldest first: never more than
    [MAX_LOG_ENTRIES], and only the oldest are dropped. *)
Theorem log_keeps_the_last_hundred (es : list JVal) :
  log_pushes es [] = skipn (length es - MAX_LOG_ENTRIES) es
  /\ length (log_pushes es []) = Nat.min (length es) MAX_LOG_ENTRIES
  /\ (forall e : JVal, last (log_pushes (es ++ [e]) []) = Some e).
Proof.
  assert (Hwin : forall l, log_pushes l [] = skipn (length l - MAX_LOG_ENTRIES) l).
  { intros l. rewrite log_pushes_window by (simpl; lia). reflexivity. }
  split; [apply Hwin|]. split.
  - rewrite Hwin, length_skipn. lia.
  - intros e. rewrite Hwin, length_app. simpl.
    rewrite skipn_app.
    replace (length es + 1 - MAX_LOG_ENTRIES - length es)%nat with 0%nat
      by (unfold MAX_LOG_ENTRIES; lia).
    rewrite skipn_O. apply last_snoc.
Qed.

Lemma assoc_obj_set (k k' : string) (v : JVal) (fs : list (string * JVal)) :
  assoc k (obj_set k' v fs) = if k =? k' then v else assoc k fs.
Proof.
  induction fs as [|[k0 v0] fs IH]; simpl.
  - reflexivity.
  - destruct (String.eqb_spec k' k0) as [->|Hne]; simpl.
    + destruct (k =? k0); reflexivity.
    + rewrite IH. destruct (String.eqb_spec k k0) as [->|Hne'];
        [|reflexivity].
      destruct (String.eqb_spec k0 k'); [congruence | reflexivity].
Qed.

Lemma assoc_obj_spread_other (k : string) (fs meta : list (string * JVal)) :
  has_key k meta = false ->
  assoc k (obj_spread fs meta) = assoc k fs.
Proof.
  unfold obj_spread, has_key. revert fs.
  induction meta as [|[k0 v0] meta IH]; intros fs Hk; simpl in *.
  - reflexivity.
  - apply orb_false_iff in Hk as [Hk0 Hk].
    rewrite IH by assumption. rewrite assoc_obj_set, Hk0. reflexivity.
Qed.

Lemma assoc_obj_spread_last (k : string) (v : JVal)
    (fs before after : list (string * JVal)) :
  has_key k after = false ->
  assoc k (obj_spread fs (before ++ (k, v) :: after)) = v.
Proof.
  intros Hk. unfold obj_spread. rewrite fold_left_app. simpl.
  fold (obj_spread (obj_set k v (fold_left
          (fun acc kv => obj_set (fst kv) (snd kv) acc) before fs)) after).
  rewrite assoc_obj_spread_other by assumption.
  rewrite assoc_obj_set, String.eqb_refl. reflexivity.
Qed.

(** X2. What [log] stores can be read back: a field passed in [meta] is a
    field of the entry with the value given last, and [ts], [level] and
    [message] are the entry's own unless [meta] names them, in which case
    the spread lets [meta] win. *)
Theorem log_entry_reads_back (ts level message : string)
    (meta : list (string * JVal)) :
  (forall (k : string) (v : JVal) (before after : list (string * JVal)),
     meta = (before ++ (k, v) :: after)%list ->
     has_key k after = false ->
     prop (log_entry ts level message meta) k = v)
  /\ (has_key "ts" meta = false ->
      prop (log_entry ts level message meta) "ts" = JStr ts)
  /\ (has_key "level" meta = false ->
      prop (log_entry ts level message meta) "level" = JStr level)
  /\ (has_key "message" meta = false ->
      prop (log_entry ts level message meta) "message" = JStr message).
Proof.
  unfold log_entry, prop. split; [|split; [|split]].
  - intros k v before after -> Hk. apply assoc_obj_spread_last. assumption.
  - intros Hk. rewrite assoc_obj_spread_other by assumption. reflexivity.
  - intros Hk. rewrite assoc_obj_spread_other by assumption. reflexivity.
  - intros Hk. rewrite assoc_obj_spread_other by assumption. reflexivity.
Qed.

(** ** Properties of [escapeHtml] and of the logs page *)

Lemma str_app_cons (a : ascii) (s t : string) :
  String a s +:+ t = String a (s +:+ t).
Proof. reflexivity. Qed.

Lemma str_app_assoc (s t u : string) : (s +:+ t) +:+ u = s +:+ (t +:+ u).
Proof.
  induction s as [|a s IH]; [reflexivity|].
  rewrite !str_app_cons, IH. reflexivity.
Qed.

Lemma str_app_nil_r (s : string) : s +:+ "" = s.
Proof.
  induction s as [|a s IH]; [reflexivity|].
  rewrite str_app_cons, IH. reflexivity.
Qed.

Lemma replace_char_app (c : ascii) (by_ s t : string) :
  replace_char c by_ (s +:+ t) = replace_char c by_ s +:+ replace_char c by_ t.
Proof.
  induction s as [|a s IH]; [reflexivity|].
  rewrite str_app_cons. simpl. rewrite IH.
  destruct (Ascii.eqb a c); [rewrite str_app_assoc|]; reflexivity.
Qed.

Lemma escape_string_app (s t : string) :
  escape_string (s +:+ t) = escape_string s +:+ escape_string t.
Proof.
  induction s as [|a s IH]; [reflexivity|].
  rewrite str_app_cons. simpl. rewrite IH, str_app_assoc. reflexivity.
Qed.

(** The four [replace] calls in a row. *)
Lemma four_passes (s : string) :
  replace_char dquote "&quot;"
    (replace_char ">" "&gt;"
       (replace_char "<" "&lt;" (replace_char "&" "&amp;" s)))
  = escape_string s.
Proof.
  induction s as [|a s IH]; [reflexivity|].
  cbn [replace_char escape_string]. unfold escape_char.
  destruct (Ascii.eqb_spec a "&") as [->|Hamp].
  { rewrite !replace_char_app, IH. reflexivity. }
  cbn [replace_char].
  destruct (Ascii.eqb_spec a "<") as [->|Hlt].
  { rewrite !replace_char_app, IH. reflexivity. }
  cbn [replace_char].
  destruct (Ascii.eqb_spec a ">") as [->|Hgt].
  { rewrite !replace_char_app, IH. reflexivity. }
  cbn [replace_char].
  destruct (Ascii.eqb_spec a dquote) as [->|Hq].
  { rewrite IH. reflexivity. }
  rewrite IH. reflexivity.
Qed.

Lemma escapeHtml_passes (v : JVal) :
  escapeHtml v = (if nullish v then "" else escape_string (js_to_string v)).
Proof.
  unfold escapeHtml. destruct (nullish v); [reflexivity | apply four_passes].
Qed.

(** X3. The four replacements compose into one left-to-right pass: every
    [&], [<], [>] and double quote of the text becomes its entity exactly
    once (the [&] of an entity written by a later pass is never escaped
    again), every other character is kept, and escaping a concatenation
    is concatenating the escapes. *)
Theorem escapeHtml_is_one_pass (v : JVal) (s t : string) :
  escapeHtml v = (if nullish v then "" else escape_string (js_to_string v))
  /\ escapeHtml (JStr (s +:+ t)) = escapeHtml (JStr s) +:+ escapeHtml (JStr t).
Proof.
  split; [apply escapeHtml_passes|].
  rewrite !escapeHtml_passes. simpl. apply escape_string_app.
Qed.

Lemma occurs_app (c : ascii) (s t : string) :
  occurs c (s +:+ t) = occurs c s || occurs c t.
Proof.
  unfold occurs. induction s as [|a s IH]; [reflexivity|].
  rewrite str_app_cons. simpl. rewrite IH. apply orb_assoc.
Qed.

Lemma escape_char_clean (c a : ascii) :
  c = "<"%char \/ c = ">"%char \/ c = dquote ->
  occurs c (escape_char a) = false.
Proof.
  intros Hc. unfold escape_char.
  destruct (Ascii.eqb_spec a "&");
    [destruct Hc as [->|[->| ->]]; reflexivity|].
  destruct (Ascii.eqb_spec a "<");
    [destruct Hc as [->|[->| ->]]; reflexivity|].
  destruct (Ascii.eqb_spec a ">");
    [destruct Hc as [->|[->| ->]]; reflexivity|].
  destruct (Ascii.eqb_spec a dquote);
    [destruct Hc as [->|[->| ->]]; reflexivity|].
  unfold occurs. simpl. rewrite orb_false_r. apply Ascii.eqb_neq.
  destruct Hc as [->|[->| ->]]; congruence.
Qed.

Lemma escape_string_clean (c : ascii) (s : string) :
  c = "<"%char \/ c = ">"%char \/ c = dquote ->
  occurs c (escape_string s) = false.
Proof.
  intros Hc. induction s as [|a s IH]; [reflexivity|].
  simpl. rewrite occurs_app, IH, escape_char_clean by assumption. reflexivity.
Qed.

(** X4. Whatever is passed to it, [escapeHtml] returns a text without
    [<], [>] or double quote: nothing logged can open a tag or close an
    attribute on the logs page. *)
Theorem escapeHtml_has_no_markup (v : JVal) :
  occurs "<" (escapeHtml v) = false
  /\ occurs ">" (escapeHtml v) = false
  /\ occurs dquote (escapeHtml v) = false.
Proof.
  rewrite escapeHtml_passes.
  destruct (nullish v); [repeat split|].
  repeat split; apply escape_string_clean; auto.
Qed.

Lemma unescape_other (a : ascii) (s : string) :
  a <> "&"%char -> unescape (String a s) = String a (unescape s).
Proof.
  intros Ha.
  destruct a as [[] [] [] [] [] [] [] []]; try reflexivity.
  exfalso. apply Ha. reflexivity.
Qed.

Lemma unescape_escape (s : string) : unescape (escape_string s) = s.
Proof.
  induction s as [|a s IH]; [reflexivity|].
  cbn [escape_string]. unfold escape_char.
  destruct (Ascii.eqb_spec a "&") as [->|Hamp].
  { change (String "&" (unescape (escape_string s)) = String "&" s).
    rewrite IH. reflexivity. }
  destruct (Ascii.eqb_spec a "<") as [->|Hlt].
  { change (String "<" (unescape (escape_string s)) = String "<" s).
    rewrite IH. reflexivity. }
  destruct (Ascii.eqb_spec a ">") as [->|Hgt].
  { change (String ">" (unescape (escape_string s)) = String ">" s).
    rewrite IH. reflexivity. }
  destruct (Ascii.eqb_spec a dquote) as [->|Hq].
  { change (String dquote (unescape (escape_string s)) = String dquote s).
    rewrite IH. reflexivity. }
  rewrite str_app_cons. change ("" +:+ escape_string s) with (escape_string s).
  rewrite unescape_other by assumption. rewrite IH. reflexivity.
Qed.

(** X5. Escaping loses nothing: reading the four entities back gives the
    text again, so two different messages never look the same on the
    logs page. *)
Theorem escapeHtml_is_injective (s t : string) :
  unescape (escapeHtml (JStr s)) = s
  /\ (escapeHtml (JStr s) = escapeHtml (JStr t) -> s = t).
Proof.
  assert (Hback : forall u, unescape (escapeHtml (JStr u)) = u).
  { intros u. rewrite escapeHtml_passes. apply unescape_escape. }
  split; [apply Hback|].
  intros Heq. rewrite <- (Hback s), <- (Hback t), Heq. reflexivity.
Qed.

Lemma length_slice_to (n : nat) (s : string) :
  (String.length (slice_to n s) <= n)%nat.
Proof.
  revert s. induction n as [|n IH]; intros [|a s]; simpl; try lia.
  specialize (IH s). lia.
Qed.

Lemma occurs_slice_to (c : ascii) (n : nat) (s : string) :
  occurs c s = false -> occurs c (slice_to n s) = false.
Proof.
  unfold occurs. revert s.
  induction n as [|n IH]; intros [|a s]; simpl; try reflexivity.
  intros Hs. apply orb_false_iff in Hs as [Ha Hs].
  rewrite Ha, IH by assumption. reflexivity.
Qed.

(** X6. The error cell of a logs row is at most 200 characters long and,
    cut or not, holds no [<], [>] or double quote; an entry without an
    error (or with an empty one) shows a dash. *)
Theorem error_cell_is_short_and_clean (e : JVal) :
  (String.length (error_cell e) <= 200)%nat
  /\ occurs "<" (error_cell e) = false
  /\ occurs ">" (error_cell e) = false
  /\ occurs dquote (error_cell e) = false
  /\ (truthy (prop e "error") = false -> error_cell e = "-").
Proof.
  unfold error_cell. destruct (truthy (prop e "error")).
  - split; [apply length_slice_to|].
    rewrite escapeHtml_passes.
    destruct (nullish (prop e "error"));
      [repeat split; try reflexivity; discriminate|].
    repeat split; try discriminate;
      apply occurs_slice_to, escape_string_clean; auto.
  - repeat split. simpl. lia.
Qed.

Lemma concat_empty_sep_cons (x : string) (xs : list string) :
  String.concat "" (x :: xs) = x +:+ String.concat "" xs.
Proof.
  destruct xs as [|y ys]; simpl.
  - symmetry. apply str_app_nil_r.
  - reflexivity.
Qed.

Lemma concat_empty_sep_app (xs ys : list string) :
  String.concat "" (xs ++ ys) = String.concat "" xs +:+ String.concat "" ys.
Proof.
  induction xs as [|x xs IH]; [reflexivity|].
  change ((x :: xs) ++ ys)%list with (x :: (xs ++ ys))%list.
  rewrite !concat_empty_sep_cons, IH, str_app_assoc. reflexivity.
Qed.

Lemma logs_rows_snoc (logEntries : list JVal) (e : JVal) :
  logs_rows (logEntries ++ [e]) = log_row e +:+ logs_rows logEntries.
Proof.
  unfold logs_rows. rewrite rev_app_distr. simpl rev. simpl map.
  apply concat_empty_sep_cons.
Qed.

(** X7. The logs table lists the entries newest first, the row of the
    latest [log] call on top, and shows the single "No entries yet." row
    exactly when nothing has been logged. *)
Theorem logs_page_is_newest_first (logEntries : list JVal) (e : JVal) :
  logs_tbody (logEntries ++ [e]) = log_row e +:+ logs_rows logEntries
  /\ (logs_tbody logEntries = no_entries_row <-> logEntries = []).
Proof.
  assert (Hrows : forall l x, exists tail,
            logs_rows (l ++ [x]) = "<tr><td>" +:+ tail).
  { intros l x. rewrite logs_rows_snoc. unfold log_row.
    rewrite str_app_assoc. eauto. }
  split.
  - unfold logs_tbody. rewrite <- logs_rows_snoc.
    destruct (Hrows logEntries e) as [tail ->]. reflexivity.
  - split.
    + destruct logEntries as [|x l] using rev_ind; [reflexivity|].
      unfold logs_tbody. destruct (Hrows l x) as [tail ->].
      change ("<tr><td>" +:+ tail =? "") with false. cbv iota.
      intros Hsame. apply (f_equal (slice_to 8)) in Hsame.
      vm_compute in Hsame. discriminate.
    + intros ->. reflexivity.
Qed.

(** ** More properties of the registry *)

Section Registry.

Context `{Engine}.

Lemma createNewSession_cases (id : string) (srv : Server) :
  (exists (w : World) (entry : Session),
     createNewSession id srv
     = (mkServer (<[id := entry]> (sessions srv)) w, Fulfilled entry)
     /\ lastUsedAt entry = date_now w)
  \/ (exists (w : World) (e : JsError),
        createNewSession id srv = (mkServer (sessions srv) w, Rejected e)).
Proof.
  unfold createNewSession, bind.
  destruct (launch (world srv)) as [w1 [b|e]]; [|right; eauto].
  destruct (newContext b w1) as [w2 [c|e]]; [|right; eauto].
  destruct (newPage c w2) as [w3 [p|e]]; [|right; eauto].
  left. eauto.
Qed.

Lemma randomId_nonempty (w : World) : truthy_str (Some (snd (randomId w))) = true.
Proof.
  unfold randomId. destruct (random_tail w) as [w' tail]. reflexivity.
Qed.

Lemma truthy_str_nonempty (s : string) :
  truthy_str (Some s) = true -> s <> "".
Proof. simpl. intros Hs ->. discriminate. Qed.

(** X8. Naming a live session costs no engine call: the engine is left
    as it was, the page handed back is the stored one, the entry keeps
    its browser, context and page and only gets [lastUsedAt] set to the
    current time, and every other session is untouched. *)
Theorem reuse_touches_only_lastUsedAt (id : string) (srv : Server)
    (entry : Session) :
  id <> "" ->
  sessions srv !! id = Some entry ->
  world (fst (getOrCreateSession (Some id) srv)) = world srv
  /\ snd (getOrCreateSession (Some id) srv) = Fulfilled (id, page entry)
  /\ sessions (fst (getOrCreateSession (Some id) srv)) !! id
     = Some (mkSession (browser entry) (context entry) (page entry)
               (date_now (world srv)))
  /\ (forall id' : string, id' <> id ->
        sessions (fst (getOrCreateSession (Some id) srv)) !! id'
        = sessions srv !! id')
  /\ size (sessions (fst (getOrCreateSession (Some id) srv)))
     = size (sessions srv).
Proof.
  intros Hid Hentry. unfold getOrCreateSession. simpl.
  destruct (String.eqb_spec id ""); [contradiction|]. simpl.
  rewrite Hentry. simpl.
  split; [reflexivity|]. split; [reflexivity|].
  split; [apply lookup_insert_eq|]. split.
  - intros id' Hne. apply lookup_insert_ne. congruence.
  - apply map_size_insert_Some. eauto.
Qed.

Lemma getOrCreateSession_fulfilled (requestedId : option string)
    (srv srv' : Server) (sid : string) (pg : Page) :
  getOrCreateSession requestedId srv = (srv', Fulfilled (sid, pg)) ->
  sid <> ""
  /\ (exists entry : Session,
        sessions srv' !! sid = Some entry
        /\ page entry = pg
        /\ lastUsedAt entry = date_now (world srv'))
  /\ (truthy_str requestedId = true -> requestedId = Some sid)
  /\ (forall id' : string, id' <> sid ->
        sessions srv' !! id' = sessions srv !! id').
Proof.
  unfold getOrCreateSession.
  destruct (truthy_str requestedId) eqn:Htruthy.
  - destruct requestedId as [rid|]; [|discriminate]. simpl.
    destruct (sessions srv !! rid) as [entry|] eqn:Hentry.
    + intros [= <- <- <-]. simpl.
      split; [apply truthy_str_nonempty; assumption|].
      split; [eexists; split; [apply lookup_insert_eq | split; reflexivity]|].
      split; [reflexivity|].
      intros id' Hne. apply lookup_insert_ne. congruence.
    + destruct (createNewSession_cases rid (mkServer (sessions srv) (world srv)))
        as [(w & entry & -> & Hstamp) | (w & e & ->)]; [|discriminate].
      intros [= <- <- <-]. simpl.
      split; [apply truthy_str_nonempty; assumption|].
      split; [eexists; split; [apply lookup_insert_eq | split; [reflexivity | assumption]]|].
      split; [reflexivity|].
      intros id' Hne. apply lookup_insert_ne. congruence.
  - pose proof (randomId_nonempty (world srv)) as Hrandom.
    destruct (randomId (world srv)) as [w0 id]. simpl in Hrandom.
    destruct (createNewSession_cases id (mkServer (sessions srv) w0))
      as [(w & entry & -> & Hstamp) | (w & e & ->)]; [|discriminate].
    intros [= <- <- <-]. simpl.
    split; [apply truthy_str_nonempty; assumption|].
    split; [eexists; split; [apply lookup_insert_eq | split; [reflexivity | assumption]]|].
    split; [discriminate|].
    intros id' Hne. apply lookup_insert_ne. congruence.
Qed.

(** X9. Whenever a session is resolved, the id handed back is a
    non-empty key of the registry, bound to the page handed back and
    stamped with the current time; a requested id is used as given; and
    no other session has changed. *)
Theorem resolved_session_is_registered (requestedId : option string)
    (srv srv' : Server) (sid : string) (pg : Page) :
  getOrCreateSession requestedId srv = (srv', Fulfilled (sid, pg)) ->
  sid <> ""
  /\ (exists entry : Session,
        sessions srv' !! sid = Some entry
        /\ page entry = pg
        /\ lastUsedAt entry = date_now (world srv'))
  /\ (truthy_str requestedId = true -> requestedId = Some sid)
  /\ (forall id' : string, id' <> sid ->
        sessions srv' !! id' = sessions srv !! id').
Proof. apply getOrCreateSession_fulfilled. Qed.

Lemma getOrCreateSession_rejected (requestedId : option string)
    (srv srv' : Server) (e : JsError) :
  getOrCreateSession requestedId srv = (srv', Rejected e) ->
  sessions srv' = sessions srv
  /\ (forall id : string, requestedId = Some id -> id <> "" ->
        sessions srv !! id = None).
Proof.
  unfold getOrCreateSession.
  destruct (truthy_str requestedId) eqn:Htruthy.
  - destruct requestedId as [rid|]; [|discriminate]. simpl.
    destruct (sessions srv !! rid) as [entry|] eqn:Hentry; [discriminate|].
    destruct (createNewSession_cases rid (mkServer (sessions srv) (world srv)))
      as [(w & entry & -> & _) | (w & e' & ->)]; [discriminate|].
    intros [= <- <-]. split; [reflexivity|].
    intros id [= <-] _. assumption.
  - destruct (randomId (world srv)) as [w0 id].
    destruct (createNewSession_cases id (mkServer (sessions srv) w0))
      as [(w & entry & -> & _) | (w & e' & ->)]; [discriminate|].
    intros [= <- <-]. split; [reflexivity|].
    intros id' -> Hne. simpl in Htruthy.
    destruct (String.eqb_spec id' ""); [contradiction | discriminate].
Qed.

(** X10. A session that cannot be launched is not registered: when the
    launch, the context or the page fails, [getOrCreateSession] rejects
    with that error and the [sessions] map is exactly what it was; and
    only an id the registry did not hold can fail this way. *)
Theorem failed_launch_registers_nothing (requestedId : option string)
    (srv srv' : Server) (e : JsError) :
  getOrCreateSession requestedId srv = (srv', Rejected e) ->
  sessions srv' = sessions srv
  /\ (forall id : string, requestedId = Some id -> id <> "" ->
        sessions srv !! id = None).
Proof. apply getOrCreateSession_rejected. Qed.

(** X11. [DELETE /session/:id] for a live session answers 200, closes
    that session's browser and removes that entry alone: the id is gone,
    every other session is as it was, and [/health] counts one session
    fewer. *)
Theorem delete_removes_exactly_one (SECRET : option string) (req : Request)
    (id : string) (srv : Server) (entry : Session) :
  fst (checkAuth SECRET req fresh_res) = true ->
  id <> "" ->
  sessions srv !! id = Some entry ->
  statusCode (snd (delete_session SECRET req id srv)) = 200%nat
  /\ world (fst (delete_session SECRET req id srv))
     = browser_close (browser entry) (world srv)
  /\ sessions (fst (delete_session SECRET req id srv)) !! id = None
  /\ (forall id' : string, id' <> id ->
        sessions (fst (delete_session SECRET req id srv)) !! id'
        = sessions srv !! id')
  /\ S (size (sessions (fst (delete_session SECRET req id srv))))
     = size (sessions srv).
Proof.
  intros Hauth Hid Hentry. unfold delete_session.
  rewrite (checkAuth_passed _ _ _ Hauth). simpl.
  destruct (String.eqb_spec id ""); [contradiction|]. simpl.
  unfold closeSession. rewrite Hentry. simpl.
  split; [reflexivity|]. split; [reflexivity|].
  split; [apply lookup_delete_eq|]. split.
  - intros id' Hne. apply lookup_delete_ne. congruence.
  - rewrite map_size_delete, Hentry.
    pose proof (map_size_ne_0_lookup_2 (sessions srv) id) as Hpos.
    assert (size (sessions srv) <> 0%nat) by (apply Hpos; eauto). lia.
Qed.

End Registry.

(** ** Properties of the expiry sweep *)

Section Sweep.

Context `{Engine}.

Variable SESSION_TTL_MS : Z.

(** What one sweep does to each id. *)
Lemma sweep_lookup (now : Z) (order : list string) :
  forall (srv : Server) (id : string),
    sessions (sweep SESSION_TTL_MS now order srv) !! id
    = match sessions srv !! id with
      | Some entry =>
          if expired SESSION_TTL_MS now entry && bool_decide (id ∈ order)
          then None else Some entry
      | None => None
      end.
Proof.
  induction order as [|id0 rest IH]; intros srv id; cbn [sweep].
  - destruct (sessions srv !! id) as [entry|]; [|reflexivity].
    rewrite bool_decide_eq_false_2 by apply not_elem_of_nil.
    rewrite andb_false_r. reflexivity.
  - destruct (sessions srv !! id0) as [entry0|] eqn:Hid0.
    + destruct (expired SESSION_TTL_MS now entry0) eqn:Hexp0.
      * rewrite IH. unfold closeSession. rewrite Hid0. simpl.
        destruct (decide (id = id0)) as [->|Hne].
        -- rewrite lookup_delete_eq, Hid0, Hexp0.
           rewrite bool_decide_eq_true_2 by (apply elem_of_cons; auto).
           reflexivity.
        -- rewrite lookup_delete_ne by congruence.
           destruct (sessions srv !! id) as [entry|]; [|reflexivity].
           rewrite (bool_decide_ext (id ∈ id0 :: rest) (id ∈ rest))
             by (rewrite elem_of_cons; tauto).
           reflexivity.
      * rewrite IH.
        destruct (decide (id = id0)) as [->|Hne].
        -- rewrite Hid0, Hexp0. reflexivity.
        -- destruct (sessions srv !! id) as [entry|]; [|reflexivity].
           rewrite (bool_decide_ext (id ∈ id0 :: rest) (id ∈ rest))
             by (rewrite elem_of_cons; tauto).
           reflexivity.
    + rewrite IH.
      destruct (decide (id = id0)) as [->|Hne].
      * rewrite Hid0. reflexivity.
      * destruct (sessions srv !! id) as [entry|]; [|reflexivity].
        rewrite (bool_decide_ext (id ∈ id0 :: rest) (id ∈ rest))
          by (rewrite elem_of_cons; tauto).
        reflexivity.
Qed.

(** A sweep over ids none of which is due leaves the server alone. *)
Lemma sweep_nothing_due (now : Z) (order : list string) (srv : Server) :
  (forall (id : string) (entry : Session),
     In id order -> sessions srv !! id = Some entry ->
     expired SESSION_TTL_MS now entry = false) ->
  sweep SESSION_TTL_MS now order srv = srv.
Proof.
  induction order as [|id0 rest IH]; intros Hfresh; simpl; [reflexivity|].
  destruct (sessions srv !! id0) as [entry0|] eqn:Hid0.
  - rewrite (Hfresh id0 entry0 (or_introl eq_refl) Hid0).
    apply IH. intros id entry Hin. apply Hfresh. right. assumption.
  - apply IH. intros id entry Hin. apply Hfresh. right. assumption.
Qed.

(** X12. After [cleanupExpiredSessions], in whatever order the map
    yields its entries, the registry is the old one without the sessions
    idle for more than [SESSION_TTL_MS]: those are gone, the others are
    there unchanged, and no session appears. *)
Theorem sweep_evicts_exactly_the_expired (order : list string) (srv : Server)
    (id : string) :
  enumerates order srv ->
  sessions (cleanupExpiredSessions SESSION_TTL_MS order srv) !! id
  = match sessions srv !! id with
    | Some entry =>
        if (SESSION_TTL_MS <? date_now (world srv) - lastUsedAt entry)%Z
        then None else Some entry
    | None => None
    end.
Proof.
  intros Hall. unfold cleanupExpiredSessions. rewrite sweep_lookup.
  destruct (sessions srv !! id) as [entry|] eqn:Hid; [|reflexivity].
  rewrite bool_decide_eq_true_2
    by (apply list_elem_of_In, Hall; rewrite Hid; eauto).
  rewrite andb_true_r. reflexivity.
Qed.

(** X13. A session used within the last [SESSION_TTL_MS] milliseconds
    survives the sweep unchanged, for any iteration order; the bound is
    inclusive: idle for exactly the TTL is not yet expired. *)
Theorem sweep_spares_recent_sessions (order : list string) (srv : Server)
    (id : string) (entry : Session) :
  sessions srv !! id = Some entry ->
  (date_now (world srv) - lastUsedAt entry <= SESSION_TTL_MS)%Z ->
  sessions (cleanupExpiredSessions SESSION_TTL_MS order srv) !! id = Some entry.
Proof.
  intros Hid Hrecent. unfold cleanupExpiredSessions.
  rewrite sweep_lookup, Hid. unfold expired.
  replace (SESSION_TTL_MS <? date_now (world srv) - lastUsedAt entry)%Z
    with false by (symmetry; apply Z.ltb_ge; assumption).
  reflexivity.
Qed.

(** X14. Sweeping again at the same instant does nothing at all: the
    first pass leaves no session due, so the second closes no browser
    and returns the server, engine included, as it got it. *)
Theorem sweep_twice_is_sweep_once (now : Z) (order : list string)
    (srv : Server) :
  sweep SESSION_TTL_MS now order (sweep SESSION_TTL_MS now order srv) = sweep SESSION_TTL_MS now order srv.
Proof.
  apply sweep_nothing_due. intros id entry Hin Hid.
  rewrite sweep_lookup in Hid.
  destruct (sessions srv !! id) as [entry0|]; [|discriminate].
  rewrite (bool_decide_eq_true_2 _ (proj2 (list_elem_of_In _ _) Hin)),
    andb_true_r in Hid.
  destruct (expired SESSION_TTL_MS now entry0) eqn:Hexp; [discriminate|].
  injection Hid as <-. assumption.
Qed.

(** X15. An evicted id is unknown to the direct control surface and new
    to [/run]: once the sweep has removed a session, the screenshot,
    info and interact endpoints answer 404 for its id, and resolving the
    id again goes through [createNewSession]. *)
Theorem evicted_session_is_unknown (SECRET : option string) (req : Request)
    (order : list string) (srv : Server) (id : string) (entry : Session) :
  let swept := cleanupExpiredSessions SESSION_TTL_MS order srv in
  fst (checkAuth SECRET req fresh_res) = true ->
  In id order ->
  id <> "" ->
  sessions srv !! id = Some entry ->
  (SESSION_TTL_MS < date_now (world srv) - lastUsedAt entry)%Z ->
  sessions swept !! id = None
  /\ get_screenshot SECRET req id swept
     = (swept, res_json not_found (res_status 404 fresh_res))
  /\ get_info SECRET req id swept
     = (swept, res_json not_found (res_status 404 fresh_res))
  /\ interact SECRET req id swept
     = (swept, res_json not_found (res_status 404 fresh_res))
  /\ getOrCreateSession (Some id) swept
     = match createNewSession id swept with
       | (srv', Fulfilled fresh) => (srv', Fulfilled (id, page fresh))
       | (srv', Rejected e) => (srv', Rejected e)
       end.
Proof.
  intros swept Hauth Hin Hid Hentry Hidle.
  assert (Hgone : sessions swept !! id = None).
  { unfold swept, cleanupExpiredSessions. rewrite sweep_lookup, Hentry.
    unfold expired.
    replace (SESSION_TTL_MS <? date_now (world srv) - lastUsedAt entry)%Z
      with true by (symmetry; apply Z.ltb_lt; assumption).
    rewrite bool_decide_eq_true_2 by (apply list_elem_of_In; assumption).
    reflexivity. }
  split; [exact Hgone|].
  unfold get_screenshot, get_info, interact, getOrCreateSession.
  rewrite (checkAuth_passed _ _ _ Hauth), Hgone. simpl.
  destruct (String.eqb_spec id ""); [contradiction|]. simpl.
  rewrite Hgone. destruct swept. repeat split.
Qed.

End Sweep.

(** ** More properties of the handlers *)

Lemma statusCode_write_all (cs : list Chunk) (r : Res) :
  statusCode (write_all cs r) = statusCode r.
Proof.
  revert r. induction cs as [|c cs IH]; intros r; [reflexivity|].
  simpl. unfold write_all in IH. rewrite IH. reflexivity.
Qed.

Section Handlers.

Context `{Engine}.

Variable SECRET : option string.

(** X16. The direct control surface never makes a session: for an id the
    registry does not hold, the screenshot, info and interact endpoints
    answer 404 [Session not found] and return the server, engine
    included, exactly as it was. *)
Theorem unknown_session_is_not_found (ep : Endpoint) (req : Request)
    (id : string) (srv : Server) :
  fst (checkAuth SECRET req fresh_res) = true ->
  sessions srv !! id = None ->
  ep = GetScreenshot id \/ ep = GetInfo id \/ ep = PostInteract id ->
  handle SECRET ep req srv
  = (srv, res_json not_found (res_status 404 fresh_res))
  /\ statusCode (snd (handle SECRET ep req srv)) = 404%nat.
Proof.
  intros Hauth Hid Hep. apply checkAuth_passed in Hauth.
  assert (Hh : handle SECRET ep req srv
               = (srv, res_json not_found (res_status 404 fresh_res))).
  { destruct Hep as [->|[->| ->]]; simpl;
      unfold get_screenshot, get_info, interact; rewrite Hauth, Hid;
      reflexivity. }
  rewrite Hh. split; reflexivity.
Qed.

(** Every way out of the [/interact] dispatch through a 400 is taken
    before the page is used. *)
Lemma interact_action_rejects_early (pg : Page) (b : JVal) (w w' : World)
    (msg : string) :
  interact_action pg b w = (w', Fulfilled (Some msg)) -> w' = w.
Proof.
  unfold interact_action, bind, ret.
  repeat match goal with
  | |- context [if ?c then _ else _] => destruct c
  | |- context [match prop b ?k with _ => _ end] => destruct (prop b k)
  | |- context [match ?call with (_, _) => _ end] =>
      destruct call as [? [[]|?]]
  end;
  intros Heq; try discriminate; injection Heq as <- _; reflexivity.
Qed.

(** X17. Whenever [/interact] answers 400 (a field of the wrong type or
    missing, or an unknown action), the engine has not been touched: the
    request is turned down before any mouse, keyboard, navigation or
    screenshot call. The session's [lastUsedAt] is refreshed all the
    same. *)
Theorem interact_400_leaves_the_page_alone (req : Request) (id : string)
    (srv : Server) :
  statusCode (snd (interact SECRET req id srv)) = 400%nat ->
  world (fst (interact SECRET req id srv)) = world srv
  /\ exists (entry : Session) (msg : string),
       sessions srv !! id = Some entry
       /\ sessions (fst (interact SECRET req id srv)) !! id
          = Some (touch (date_now (world srv)) entry)
       /\ written (snd (interact SECRET req id srv))
          = [JsonDoc (error_body msg)].
Proof.
  unfold interact.
  destruct (checkAuth SECRET req fresh_res) as [[|] r] eqn:Hauth.
  2:{ apply (f_equal fst) in Hauth as Hf. apply checkAuth_failed in Hf.
      rewrite Hf in Hauth. injection Hauth as <-. discriminate. }
  apply (f_equal fst) in Hauth as Hf. apply checkAuth_passed in Hf.
  rewrite Hf in Hauth. injection Hauth as <-.
  destruct (sessions srv !! id) as [entry|]; [|discriminate].
  unfold respond, bind.
  destruct (interact_action (page entry) (js_or (body req) (JObj [])) (world srv))
    as [w1 [[msg|]|e]] eqn:Hact.
  - apply interact_action_rejects_early in Hact as ->.
    intros _. simpl. split; [reflexivity|].
    exists entry, msg. split; [reflexivity|].
    split; [apply lookup_insert_eq | reflexivity].
  - unfold capture, bind, current_url, current_title, try_catch, ret.
    destruct (page_screenshot (page entry) w1) as [w2 [buf|e]];
      [|discriminate].
    destruct (page_url (page entry) w2) as [url|e]; [|discriminate].
    destruct (page_title (page entry) w2) as [w3 [title|e]]; discriminate.
  - discriminate.
Qed.

End Handlers.

Section Footprint.

Context `{Engine}.

Variable SECRET : option string.

Lemma getOrCreateSession_sessions (requestedId : option string)
    (srv srv' : Server) (r : Result (string * Page)) :
  getOrCreateSession requestedId srv = (srv', r) ->
  sessions srv' = sessions srv
  \/ exists (sid : string) (entry : Session),
       sid <> "" /\ sessions srv' = <[sid := entry]> (sessions srv).
Proof.
  unfold getOrCreateSession.
  destruct (truthy_str requestedId) eqn:Htruthy.
  - destruct requestedId as [rid|]; [|discriminate]. simpl.
    apply truthy_str_nonempty in Htruthy.
    destruct (sessions srv !! rid) as [entry|].
    + intros [= <- <-]. right. simpl. eauto.
    + destruct (createNewSession_cases rid (mkServer (sessions srv) (world srv)))
        as [(w & entry & -> & _) | (w & e & ->)]; intros [= <- <-]; simpl;
        [right; eauto | left; reflexivity].
  - pose proof (randomId_nonempty (world srv)) as Hrandom.
    destruct (randomId (world srv)) as [w0 id]. simpl in Hrandom.
    apply truthy_str_nonempty in Hrandom.
    destruct (createNewSession_cases id (mkServer (sessions srv) w0))
      as [(w & entry & -> & _) | (w & e & ->)]; intros [= <- <-]; simpl;
      [right; eauto | left; reflexivity].
Qed.

(** X18. A [/run] request, whatever its steps do, changes the registry
    in at most one place: afterwards [sessions] is either what it was or
    what it was with one non-empty id bound anew. It never removes a
    session, and the step loop itself never writes to the registry. *)
Theorem run_changes_at_most_one_entry (req : Request) (srv : Server) :
  sessions (fst (run SECRET req srv)) = sessions srv
  \/ exists (sid : string) (entry : Session),
       sid <> ""
       /\ sessions (fst (run SECRET req srv)) = <[sid := entry]> (sessions srv).
Proof.
  unfold run.
  destruct (checkAuth SECRET req fresh_res) as [[|] r]; [|left; reflexivity].
  destruct (prop (js_or (body req) (JObj [])) "steps")
    as [| | | | |[|x items]|]; try (left; reflexivity).
  destruct (15 <? length (x :: items))%nat; [left; reflexivity|].
  destruct (getOrCreateSession
              (requested (body_sessionId (js_or (body req) (JObj [])))) srv)
    as [srv1 res1] eqn:Hsess.
  rewrite (run_try_sessions _ _ _ _ _ _ _ Hsess).
  apply (getOrCreateSession_sessions _ _ _ _ Hsess).
Qed.

(** X19. Only [DELETE /session/:id] takes a session out of the registry
    and only [/run] puts one in: under any other endpoint every id that
    was registered still is, and under any endpoint but [/run] no id
    becomes registered. *)
Theorem only_delete_removes_only_run_adds (ep : Endpoint) (req : Request)
    (srv : Server) (id : string) :
  ((forall sid : string, ep <> DeleteSession sid) ->
   is_Some (sessions srv !! id) ->
   is_Some (sessions (fst (handle SECRET ep req srv)) !! id))
  /\ (ep <> PostRun ->
      sessions srv !! id = None ->
      sessions (fst (handle SECRET ep req srv)) !! id = None).
Proof.
  assert (Hinteract : forall sid,
    sessions (fst (interact SECRET req sid srv)) = sessions srv
    \/ exists entry, sessions srv !! sid = Some entry
         /\ sessions (fst (interact SECRET req sid srv))
            = <[sid := touch (date_now (world srv)) entry]> (sessions srv)).
  { intros sid. unfold interact.
    destruct (checkAuth SECRET req fresh_res) as [[|] r]; [|left; reflexivity].
    destruct (sessions srv !! sid) as [entry|] eqn:Hsid; [|left; reflexivity].
    destruct (respond _ r (world srv)) as [w r']. right. eauto. }
  split.
  - intros Hep Hid. destruct ep as [| |sid|sid|sid|sid]; simpl.
    + assumption.
    + destruct (run_changes_at_most_one_entry req srv)
        as [-> | (sid & entry & _ & ->)]; [assumption|].
      destruct (decide (sid = id)) as [->|Hne];
        [rewrite lookup_insert_eq; eauto | rewrite lookup_insert_ne; assumption].
    + exfalso. apply (Hep sid). reflexivity.
    + rewrite get_screenshot_sessions. assumption.
    + rewrite get_info_sessions. assumption.
    + destruct (Hinteract sid) as [-> | (entry & _ & ->)]; [assumption|].
      destruct (decide (sid = id)) as [->|Hne];
        [rewrite lookup_insert_eq; eauto | rewrite lookup_insert_ne; assumption].
  - intros Hep Hid. destruct ep as [| |sid|sid|sid|sid]; simpl.
    + assumption.
    + contradiction.
    + unfold delete_session.
      destruct (checkAuth SECRET req fresh_res) as [[|] r]; [|assumption].
      destruct (negb (truthy_str (Some sid))); [assumption|]. simpl.
      destruct (decide (sid = id)) as [->|Hne];
        [apply closeSession_removes | rewrite closeSession_others; assumption].
    + rewrite get_screenshot_sessions. assumption.
    + rewrite get_info_sessions. assumption.
    + destruct (Hinteract sid) as [-> | (entry & Hsid & ->)]; [assumption|].
      destruct (decide (sid = id)) as [->|Hne];
        [congruence | rewrite lookup_insert_ne; assumption].
Qed.

End Footprint.

(** ** Every request is answered *)

Lemma res_json_finished (data : JVal) (code : nat) (r : Res) :
  In code [200; 400; 401; 404; 500]%nat ->
  finished (res_json data (res_status code r)).
Proof.
  intros Hcode. unfold finished. simpl.
  repeat split; [|assumption].
  destruct (written r); discriminate.
Qed.

Lemma res_json_ok_finished (data : JVal) :
  finished (res_json data fresh_res).
Proof. apply (res_json_finished data 200 fresh_res). simpl. auto. Qed.

Lemma stream_end_finished (c : Chunk) (r : Res) :
  statusCode r = 200%nat -> finished (res_end (res_write c r)).
Proof.
  intros Hcode. unfold finished. simpl. rewrite Hcode.
  repeat split; [|simpl; auto].
  destruct (written r); discriminate.
Qed.

Lemma checkAuth_cases (SECRET : option string) (req : Request) (res : Res) :
  checkAuth SECRET req res = (true, res)
  \/ checkAuth SECRET req res
     = (false, res_json unauthorized (res_status 401 res)).
Proof.
  unfold checkAuth. destruct (negb (truthy_str SECRET)); [auto|].
  destruct (negb (bool_decide _)); auto.
Qed.

Section Answers.

Context `{Engine}.

Variable SECRET : option string.

Lemma run_try_finished (stream : bool) (items : list JVal)
    (rsid : option string) (srv : Server) :
  finished (snd (run_try stream items rsid fresh_res srv)).
Proof.
  destruct (getOrCreateSession (requested rsid) srv)
    as [srv1 [[sid pg]|e]] eqn:Hsess.
  - destruct (step_loop stream pg 0 items (loop_start stream) (world srv1))
      as [[w rs] err] eqn:Hloop.
    rewrite (run_try_resolved _ _ _ _ _ _ _ _ _ _ Hsess Hloop). simpl.
    apply loop_response in Hloop as (Hres & _).
    unfold run_catch. rewrite Hres.
    destruct stream.
    + rewrite headersSent_write_all by reflexivity. simpl.
      destruct err; apply stream_end_finished;
        rewrite statusCode_write_all; reflexivity.
    + destruct err; simpl.
      * apply res_json_finished. simpl. auto 10.
      * apply res_json_ok_finished.
  - rewrite (run_try_launch_failed _ _ _ _ _ _ Hsess). simpl.
    unfold run_catch, loop_start. destruct stream; simpl.
    + apply stream_end_finished. reflexivity.
    + apply res_json_finished. simpl. auto 10.
Qed.

Lemma respond_finished (m : M (nat * JVal)) (w : World) :
  (forall w' code data, m w = (w', Fulfilled (code, data)) ->
     code = 200%nat \/ code = 400%nat) ->
  finished (snd (respond m fresh_res w)).
Proof.
  intros Hcodes. unfold respond.
  destruct (m w) as [w' [[code data]|e]] eqn:Hm; simpl.
  - apply res_json_finished.
    destruct (Hcodes _ _ _ eq_refl) as [-> | ->]; simpl; auto.
  - apply res_json_finished. simpl. auto 10.
Qed.

(** Run a handler's [try] block through every outcome of its engine
    calls, and read the status code off each way out. *)
Ltac run_to_the_end :=
  repeat match goal with
  | |- context [match ?call with (_, _) => _ end] =>
      destruct call as [? [?|?]]; cbn beta iota
  | |- context [match ?r with Fulfilled _ => _ | Rejected _ => _ end] =>
      destruct r; cbn beta iota
  | |- context [match ?o with Some _ => _ | None => _ end] =>
      destruct o; cbn beta iota
  end;
  let Heq := fresh "Heq" in
  intros Heq; try discriminate Heq; injection Heq as _ <- _; auto.

(** X20. Every request to every endpoint is answered, whatever the
    engine does: the response has been sent and ended, it is not empty,
    and its status is one of 200, 400, 401, 404 and 500. No handler
    leaves a request hanging or lets an engine error go unanswered. *)
Theorem every_request_is_answered (ep : Endpoint) (req : Request)
    (srv : Server) :
  ended (snd (handle SECRET ep req srv)) = true
  /\ headersSent (snd (handle SECRET ep req srv)) = true
  /\ written (snd (handle SECRET ep req srv)) <> []
  /\ In (statusCode (snd (handle SECRET ep req srv)))
       [200; 400; 401; 404; 500]%nat.
Proof.
  change (finished (snd (handle SECRET ep req srv))).
  assert (H401 : finished (res_json unauthorized (res_status 401 fresh_res)))
    by (apply res_json_finished; simpl; auto).
  assert (H404 : finished (res_json not_found (res_status 404 fresh_res)))
    by (apply res_json_finished; simpl; auto 10).
  destruct ep as [| |sid|sid|sid|sid]; simpl.
  - apply res_json_ok_finished.
  - unfold run.
    destruct (checkAuth_cases SECRET req fresh_res) as [-> | ->];
      [|exact H401].
    destruct (prop (js_or (body req) (JObj [])) "steps")
      as [| | | | |[|x items]|];
      try (apply res_json_finished; simpl; auto).
    destruct (15 <? length (x :: items))%nat;
      [apply res_json_finished; simpl; auto | apply run_try_finished].
  - unfold delete_session.
    destruct (checkAuth_cases SECRET req fresh_res) as [-> | ->];
      [|exact H401].
    destruct (negb (truthy_str (Some sid)));
      [apply res_json_finished; simpl; auto | apply res_json_ok_finished].
  - unfold get_screenshot.
    destruct (checkAuth_cases SECRET req fresh_res) as [-> | ->];
      [|exact H401].
    destruct (sessions srv !! sid) as [entry|]; [|exact H404].
    match goal with
    | |- context [respond ?m fresh_res ?w] =>
        pose proof (respond_finished m w) as Hfin;
        destruct (respond m fresh_res w) as [w' r'] eqn:Hresp
    end.
    simpl in *. apply Hfin. clear.
    unfold bind, capture, current_url, current_title, try_catch, ret.
    intros w' code data. run_to_the_end.
  - unfold get_info.
    destruct (checkAuth_cases SECRET req fresh_res) as [-> | ->];
      [|exact H401].
    destruct (sessions srv !! sid) as [entry|]; [|exact H404].
    match goal with
    | |- context [respond ?m fresh_res ?w] =>
        pose proof (respond_finished m w) as Hfin;
        destruct (respond m fresh_res w) as [w' r'] eqn:Hresp
    end.
    simpl in *. apply Hfin. clear.
    unfold bind, current_url, current_title, try_catch, ret.
    intros w' code data. run_to_the_end.
  - unfold interact.
    destruct (checkAuth_cases SECRET req fresh_res) as [-> | ->];
      [|exact H401].
    destruct (sessions srv !! sid) as [entry|]; [|exact H404].
    match goal with
    | |- context [respond ?m fresh_res ?w] =>
        pose proof (respond_finished m w) as Hfin;
        destruct (respond m fresh_res w) as [w' r'] eqn:Hresp
    end.
    simpl in *. apply Hfin. clear.
    unfold bind, capture, current_url, current_title, try_catch, ret.
    intros w' code data. run_to_the_end.
Qed.

End Answers.

(** ** Validation and edge cases of the steps *)

Section StepEdges.

Context `{Engine}.



(** X22. The edges of [wait]: a numeric delay that is zero or negative is
    accepted and does nothing at all; a positive delay alone only runs
    the timer; with a selector, a delay that is not a number is ignored
    and the selector is awaited with the 15000 ms default unless
    [selectorTimeout] is given. *)
Theorem wait_edge_cases (pg : Page) (step : JVal) (n : Z) (w : World) :
  (prop step "delay" = JNum n ->
   truthy (prop step "selector") = false ->
   step_action pg (JStr "wait") step w
   = (if (0 <? n)%Z then set_timeout n w else w, Fulfilled tt))
  /\ (is_number (prop step "delay") = false ->
      truthy (prop step "selector") = true ->
      step_action pg (JStr "wait") step w
      = page_waitForSelector pg (prop step "selector")
          (js_nullish (prop step "selectorTimeout") (JNum 15000)) w)
  /\ (prop step "selectorTimeout" = JUndef ->
      js_nullish (prop step "selectorTimeout") (JNum 15000) = JNum 15000).
Proof.
  split; [|split].
  - intros Hdelay Hsel.
    unfold step_action, positive_number, sleep, when, bind, ret. simpl.
    rewrite Hdelay, Hsel. simpl. destruct (0 <? n)%Z; reflexivity.
  - intros Hdelay Hsel.
    unfold step_action, positive_number, when, bind, ret. simpl.
    rewrite Hsel, Hdelay.
    assert (Hpos : match prop step "delay" with
                   | JNum k => (0 <? k)%Z
                   | _ => false
                   end = false)
      by (destruct (prop step "delay"); try reflexivity; discriminate).
    rewrite Hpos. simpl.
    destruct (page_waitForSelector pg (prop step "selector")
                (js_nullish (prop step "selectorTimeout") (JNum 15000)) w)
      as [w' [[]|e]]; reflexivity.
  - intros ->. reflexivity.
Qed.

End StepEdges.

(** ** How a run ends early *)

Section RunEnds.

Context `{Engine}.

Variable SECRET : option string.

(** X23. A [null] among the steps stops a buffered run at its index: the
    steps before it are run and reported, the [null] raises a
    [TypeError], nothing after it is executed, and the answer is a 500
    carrying the error text, the results so far and the session id. *)
Theorem null_step_stops_the_run_there (req : Request) (srv srv1 : Server)
    (sid : string) (pg : Page) (pre post : list JVal) (step : JVal) :
  fst (checkAuth SECRET req fresh_res) = true ->
  wants_stream req = false ->
  request_steps req = JArr (pre ++ step :: post) ->
  (length (pre ++ step :: post) <= 15)%nat ->
  Forall (fun s => nullish s = false) pre ->
  nullish step = true ->
  getOrCreateSession (requested (request_sessionId req)) srv
  = (srv1, Fulfilled (sid, pg)) ->
  exists (done : RunState) (e : JsError),
    step_loop false pg 0 pre (loop_start false) (world srv1)
    = (world (fst (run SECRET req srv)), done, None)
    /\ length (results done) = length pre
    /\ get_prop step "action" = Rejected e
    /\ err_class e = TypeErrorC
    /\ run SECRET req srv
       = (mkServer (sessions srv1) (world (fst (run SECRET req srv))),
          res_json (run_failed (error_text e) (results done) (Some sid))
            (res_status 500 fresh_res)).
Proof.
  intros Hauth Hstream Hsteps Hlen Hpre Hnull Hsess.
  assert (Hbounds : (1 <= length (pre ++ step :: post) <= 15)%nat)
    by (split; [rewrite length_app; simpl; lia | assumption]).
  rewrite (run_valid SECRET req srv _ Hauth Hsteps Hbounds). rewrite Hstream.
  destruct (step_loop false pg 0 pre (loop_start false) (world srv1))
    as [[w1 done] err] eqn:Hloop.
  pose proof (loop_response _ _ _ _ _ _ _ Hloop)
    as (Hres & _ & _ & _ & _ & Hnone & Hok).
  specialize (Hok Hpre). subst err.
  assert (Hwhole : step_loop false pg 0 (pre ++ step :: post)
                     (loop_start false) (world srv1)
                   = (w1, done,
                      Some (mkError TypeErrorC
                        ("Cannot read properties of " +:+ js_to_string step
                         +:+ " (reading '" +:+ "action" +:+ "')")))).
  { rewrite step_loop_app, Hloop. simpl. unfold get_prop. rewrite Hnull.
    reflexivity. }
  rewrite (run_try_resolved _ _ _ _ _ _ _ _ _ _ Hsess Hwhole). simpl.
  eexists done, _. split; [reflexivity|].
  split; [apply Hnone; reflexivity|].
  split; [unfold get_prop; rewrite Hnull; reflexivity|].
  split; [reflexivity|].
  unfold run_catch. rewrite Hres. reflexivity.
Qed.

(** X24. When the session cannot be launched, a buffered [/run] answers
    500 with the launch error as text, an empty [steps] array and no
    session id; no step is run and the registry is what it was. *)
Theorem launch_failure_fails_the_run (req : Request) (srv srv1 : Server)
    (items : list JVal) (e : JsError) :
  fst (checkAuth SECRET req fresh_res) = true ->
  wants_stream req = false ->
  request_steps req = JArr items ->
  (1 <= length items <= 15)%nat ->
  getOrCreateSession (requested (request_sessionId req)) srv
  = (srv1, Rejected e) ->
  run SECRET req srv
  = (srv1, res_json (run_failed (error_text e) [] None)
             (res_status 500 fresh_res))
  /\ sessions srv1 = sessions srv
  /\ error_text e <> "".
Proof.
  intros Hauth Hstream Hsteps Hlen Hsess.
  rewrite (run_valid SECRET req srv _ Hauth Hsteps Hlen). rewrite Hstream.
  rewrite (run_try_launch_failed _ _ _ _ _ _ Hsess).
  split; [reflexivity|]. split.
  - apply (getOrCreateSession_rejected _ _ _ _ Hsess).
  - apply error_text_nonempty.
Qed.


End RunEnds.

(** ** Generated session ids *)

Lemma occurs_cons (c a : ascii) (s : string) :
  occurs c (String a s) = Ascii.eqb c a || occurs c s.
Proof. reflexivity. Qed.

Lemma digit36_value (d : Z) :
  (0 <= d < 36)%Z -> digit_value (digit36 d) = d /\ digit36 d <> "_"%char.
Proof.
  intros Hd.
  assert (Hall : forallb (fun k =>
            (digit_value (digit36 (Z.of_nat k)) =? Z.of_nat k)%Z
            && negb (Ascii.eqb (digit36 (Z.of_nat k)) "_"))
            (seq 0 36) = true) by (vm_compute; reflexivity).
  rewrite forallb_forall in Hall.
  specialize (Hall (Z.to_nat d)).
  rewrite Z2Nat.id in Hall by lia.
  assert (Hin : In (Z.to_nat d) (seq 0 36)) by (apply in_seq; lia).
  apply Hall in Hin. apply andb_true_iff in Hin as [Hval Hchar].
  split; [apply Z.eqb_eq; assumption|].
  intros Heq. rewrite Heq in Hchar. discriminate.
Qed.

Lemma base36_digits_value (fuel : nat) :
  forall (n : Z) (acc : string),
    (0 <= n < 2 ^ Z.of_nat fuel)%Z ->
    fold_left (fun v c => (36 * v + digit_value c)%Z)
      (list_ascii_of_string (base36_digits fuel n acc)) 0%Z
    = fold_left (fun v c => (36 * v + digit_value c)%Z)
        (list_ascii_of_string acc) n.
Proof.
  induction fuel as [|fuel IH]; intros n acc Hn.
  - simpl in *. replace n with 0%Z by lia. reflexivity.
  - cbn [base36_digits].
    assert (Hmod : (0 <= n mod 36 < 36)%Z) by (apply Z.mod_pos_bound; lia).
    destruct (digit36_value (n mod 36) Hmod) as [Hval _].
    destruct (n <? 36)%Z eqn:Hsmall.
    + apply Z.ltb_lt in Hsmall. simpl. rewrite Hval.
      rewrite Z.mod_small by lia. reflexivity.
    + apply Z.ltb_ge in Hsmall. rewrite IH.
      * simpl. rewrite Hval. f_equal.
        pose proof (Z.div_mod n 36). lia.
      * rewrite Nat2Z.inj_succ, Z.pow_succ_r in Hn by lia.
        split; [apply Z.div_pos; lia|].
        apply Z.div_lt_upper_bound; lia.
Qed.

Lemma base36_digits_no_underscore (fuel : nat) :
  forall (n : Z) (acc : string),
    (0 <= n)%Z ->
    occurs "_" acc = false ->
    occurs "_" (base36_digits fuel n acc) = false.
Proof.
  induction fuel as [|fuel IH]; intros n acc Hn Hacc; [assumption|].
  cbn [base36_digits].
  assert (Hmod : (0 <= n mod 36 < 36)%Z) by (apply Z.mod_pos_bound; lia).
  destruct (digit36_value (n mod 36) Hmod) as [_ Hchar].
  assert (Hacc' : occurs "_" (String (digit36 (n mod 36)) acc) = false).
  { rewrite occurs_cons, Hacc, orb_false_r.
    apply Ascii.eqb_neq. congruence. }
  destruct (n <? 36)%Z; [assumption|].
  apply IH; [apply Z.div_pos; lia | assumption].
Qed.

Lemma to_base36_back (n : Z) : (0 <= n)%Z -> from_base36 (to_base36 n) = n.
Proof.
  intros Hn. unfold to_base36, from_base36.
  destruct (n <? 0)%Z eqn:Hneg; [apply Z.ltb_lt in Hneg; lia|].
  rewrite base36_digits_value; [reflexivity|].
  split; [assumption|].
  rewrite Nat2Z.inj_succ, Z2Nat.id by apply Z.log2_nonneg.
  destruct (Z.eq_dec n 0%Z) as [->|Hpos]; [reflexivity|].
  apply Z.log2_spec. lia.
Qed.

Lemma split_at_underscore (t1 t2 r1 r2 : string) :
  occurs "_" t1 = false ->
  occurs "_" t2 = false ->
  t1 +:+ String "_" r1 = t2 +:+ String "_" r2 ->
  t1 = t2 /\ r1 = r2.
Proof.
  revert t2. induction t1 as [|a t1 IH]; intros [|b t2] H1 H2 Heq.
  - injection Heq as ->. auto.
  - rewrite str_app_cons in Heq. injection Heq as <- _.
    rewrite occurs_cons in H2. discriminate.
  - rewrite str_app_cons in Heq. injection Heq as -> _.
    rewrite occurs_cons in H1. discriminate.
  - rewrite !str_app_cons in Heq. injection Heq as -> Heq.
    rewrite occurs_cons in H1, H2.
    apply orb_false_iff in H1 as [_ H1]. apply orb_false_iff in H2 as [_ H2].
    destruct (IH t2 H1 H2 Heq) as [-> ->]. auto.
Qed.

(** X26. A generated session id is the text [sess_], the clock in base
    36, an underscore and the random part; it is never empty, and it
    tells its parts: two generated ids are equal only when they were made
    at the same millisecond with the same random part. *)
Theorem generated_ids_tell_their_parts `{Engine} (w1 w2 : World) :
  (0 <= date_now w1)%Z ->
  (0 <= date_now w2)%Z ->
  snd (randomId w1) = snd (randomId w2) ->
  date_now w1 = date_now w2
  /\ snd (random_tail w1) = snd (random_tail w2)
  /\ String.prefix "sess_" (snd (randomId w1)) = true
  /\ snd (randomId w1) <> "".
Proof.
  intros H1 H2. unfold randomId.
  destruct (random_tail w1) as [w1' tail1].
  destruct (random_tail w2) as [w2' tail2]. simpl.
  intros Heq.
  assert (Hids : to_base36 (date_now w1) +:+ String "_" tail1
                 = to_base36 (date_now w2) +:+ String "_" tail2).
  { change ("sess_" +:+ (to_base36 (date_now w1) +:+ String "_" tail1)
            = "sess_" +:+ (to_base36 (date_now w2) +:+ String "_" tail2))
      in Heq.
    repeat (rewrite str_app_cons in Heq; injection Heq as Heq).
    exact Heq. }
  assert (Hclean : forall n, (0 <= n)%Z -> occurs "_" (to_base36 n) = false).
  { intros n Hn. unfold to_base36.
    destruct (n <? 0)%Z eqn:Hneg; [apply Z.ltb_lt in Hneg; lia|].
    apply base36_digits_no_underscore; [assumption | reflexivity]. }
  destruct (split_at_underscore _ _ _ _ (Hclean _ H1) (Hclean _ H2) Hids)
    as [Hstamp Htail].
  split.
  - rewrite <- (to_base36_back (date_now w1)), <- (to_base36_back (date_now w2))
      by assumption.
    rewrite Hstamp. reflexivity.
  - split; [exact Htail|]. split; [apply prefix_append | discriminate].
Qed.

(** ** The rest of the worker at work on the demo engine *)

Module WorkedMore.

Import Demo Samples.

#[local] Existing Instance demo.

(** After 101 calls the first entry is gone and the other 100 are kept. *)
Example log_window_after_101 :
  log_pushes (map (fun k => JNum (Z.of_nat k)) (seq 0 101)) []
  = map (fun k => JNum (Z.of_nat k)) (seq 1 100).
Proof. vm_compute. reflexivity. Qed.

Example escape_script_tag :
  escapeHtml (JStr "<a href=x>Tom & Jerry</a>")
  = "&lt;a href=x&gt;Tom &amp; Jerry&lt;/a&gt;".
Proof. reflexivity. Qed.

(** The entry of [log('error', 'POST /run failed', { error: 'boom' })]. *)
Lemma log_entry_reads_back_witness :
  prop (log_entry "2026-01-01T00:00:00.000Z" "error" "POST /run failed"
          [("error", JStr "boom")]) "error" = JStr "boom"
  /\ prop (log_entry "2026-01-01T00:00:00.000Z" "error" "POST /run failed"
             [("error", JStr "boom")]) "message" = JStr "POST /run failed".
Proof.
  pose proof (log_entry_reads_back "2026-01-01T00:00:00.000Z" "error"
                "POST /run failed" [("error", JStr "boom")])
    as (Hmeta & _ & _ & Hmessage).
  split.
  - apply (Hmeta "error" (JStr "boom") [] []); reflexivity.
  - apply Hmessage. reflexivity.
Defined.

Lemma escapeHtml_is_injective_witness :
  unescape (escapeHtml (JStr "a<b")) = "a<b"
  /\ (escapeHtml (JStr "a<b") = escapeHtml (JStr "a<b") -> "a<b" = "a<b").
Proof. apply (escapeHtml_is_injective "a<b" "a<b"). Defined.

Lemma error_cell_is_short_and_clean_witness :
  error_cell (JObj [("message", JStr "Session created")]) = "-".
Proof.
  apply (error_cell_is_short_and_clean (JObj [("message", JStr "Session created")])).
  reflexivity.
Defined.

Lemma reuse_touches_only_lastUsedAt_witness :
  world (fst (getOrCreateSession (Some "s1") two_sessions)) = world two_sessions
  /\ snd (getOrCreateSession (Some "s1") two_sessions)
     = Fulfilled ("s1", page s1_entry)
  /\ sessions (fst (getOrCreateSession (Some "s1") two_sessions)) !! "s1"
     = Some (mkSession (browser s1_entry) (context s1_entry) (page s1_entry)
               (date_now (world two_sessions)))
  /\ (forall id' : string, id' <> "s1" ->
        sessions (fst (getOrCreateSession (Some "s1") two_sessions)) !! id'
        = sessions two_sessions !! id')
  /\ size (sessions (fst (getOrCreateSession (Some "s1") two_sessions)))
     = size (sessions two_sessions).
Proof.
  apply (reuse_touches_only_lastUsedAt "s1" two_sessions s1_entry).
  - discriminate.
  - vm_compute. reflexivity.
Defined.

Lemma resolved_session_is_registered_witness :
  "mine" <> ""
  /\ (exists entry : Session,
        sessions (fst (getOrCreateSession (Some "mine") two_sessions)) !! "mine"
        = Some entry
        /\ page entry = 1%nat
        /\ lastUsedAt entry
           = date_now (world (fst (getOrCreateSession (Some "mine") two_sessions))))
  /\ (truthy_str (Some "mine") = true -> Some "mine" = Some "mine")
  /\ (forall id' : string, id' <> "mine" ->
        sessions (fst (getOrCreateSession (Some "mine") two_sessions)) !! id'
        = sessions two_sessions !! id').
Proof.
  apply (resolved_session_is_registered (Some "mine") two_sessions
           (fst (getOrCreateSession (Some "mine") two_sessions)) "mine" 1%nat).
  vm_compute. reflexivity.
Defined.

Lemma failed_launch_registers_nothing_witness :
  sessions (fst (getOrCreateSession (Some "mine") cold_server))
  = sessions cold_server
  /\ (forall id : string, Some "mine" = Some id -> id <> "" ->
        sessions cold_server !! id = None).
Proof.
  apply (failed_launch_registers_nothing (Some "mine") cold_server
           (fst (getOrCreateSession (Some "mine") cold_server))
           (new_Error "Failed to launch browser")).
  vm_compute. reflexivity.
Defined.

Lemma delete_removes_exactly_one_witness :
  statusCode (snd (delete_session None get "s1" two_sessions)) = 200%nat
  /\ world (fst (delete_session None get "s1" two_sessions))
     = browser_close (browser s1_entry) (world two_sessions)
  /\ sessions (fst (delete_session None get "s1" two_sessions)) !! "s1" = None
  /\ (forall id' : string, id' <> "s1" ->
        sessions (fst (delete_session None get "s1" two_sessions)) !! id'
        = sessions two_sessions !! id')
  /\ S (size (sessions (fst (delete_session None get "s1" two_sessions))))
     = size (sessions two_sessions).
Proof.
  apply (delete_removes_exactly_one None get "s1" two_sessions s1_entry).
  - reflexivity.
  - discriminate.
  - vm_compute. reflexivity.
Defined.

(** With a TTL of 500 ms, [s1] (idle for 1000) goes and [s2] (idle for
    100) stays, the map being walked as [s2], [s1]. *)
Lemma sweep_evicts_exactly_the_expired_witness :
  sessions (cleanupExpiredSessions 500 ["s2"; "s1"] two_sessions) !! "s1" = None.
Proof.
  rewrite (sweep_evicts_exactly_the_expired 500 ["s2"; "s1"] two_sessions "s1").
  - vm_compute. reflexivity.
  - intros id [entry Hid].
    destruct (decide (id = "s1")) as [->|H1]; [simpl; auto|].
    destruct (decide (id = "s2")) as [->|H2]; [simpl; auto|].
    unfold two_sessions in Hid. simpl in Hid.
    rewrite lookup_insert_ne, lookup_singleton_ne in Hid by congruence.
    discriminate.
Defined.

Lemma sweep_spares_recent_sessions_witness :
  sessions (cleanupExpiredSessions 500 ["s2"; "s1"] two_sessions) !! "s2"
  = Some s2_entry.
Proof.
  apply (sweep_spares_recent_sessions 500 ["s2"; "s1"] two_sessions "s2" s2_entry).
  - vm_compute. reflexivity.
  - vm_compute. discriminate.
Defined.

Lemma evicted_session_is_unknown_witness :
  sessions (cleanupExpiredSessions 500 ["s2"; "s1"] two_sessions) !! "s1" = None
  /\ statusCode (snd (get_info None get "s1"
                        (cleanupExpiredSessions 500 ["s2"; "s1"] two_sessions)))
     = 404%nat.
Proof.
  destruct (evicted_session_is_unknown 500 None get ["s2"; "s1"] two_sessions
              "s1" s1_entry) as (Hgone & _ & Hinfo & _).
  - reflexivity.
  - simpl. auto.
  - discriminate.
  - vm_compute. reflexivity.
  - vm_compute. reflexivity.
  - split; [exact Hgone|]. rewrite Hinfo. reflexivity.
Defined.

Lemma unknown_session_is_not_found_witness :
  handle None (GetInfo "nope") get two_sessions
  = (two_sessions, res_json not_found (res_status 404 fresh_res))
  /\ statusCode (snd (handle None (GetInfo "nope") get two_sessions)) = 404%nat.
Proof.
  apply (unknown_session_is_not_found None (GetInfo "nope") get "nope"
           two_sessions).
  - reflexivity.
  - vm_compute. reflexivity.
  - auto.
Defined.

Lemma interact_400_leaves_the_page_alone_witness :
  world (fst (interact None click_nowhere "s1" two_sessions)) = world two_sessions
  /\ exists (entry : Session) (msg : string),
       sessions two_sessions !! "s1" = Some entry
       /\ sessions (fst (interact None click_nowhere "s1" two_sessions)) !! "s1"
          = Some (touch (date_now (world two_sessions)) entry)
       /\ written (snd (interact None click_nowhere "s1" two_sessions))
          = [JsonDoc (error_body msg)].
Proof.
  apply (interact_400_leaves_the_page_alone None click_nowhere "s1" two_sessions).
  vm_compute. reflexivity.
Defined.

Lemma only_delete_removes_only_run_adds_witness :
  is_Some (sessions (fst (handle None PostRun (post scenario) two_sessions)) !! "s2")
  /\ sessions (fst (handle None (PostInteract "s1") click_nowhere two_sessions))
       !! "other" = None.
Proof.
  pose proof (only_delete_removes_only_run_adds None PostRun (post scenario)
                two_sessions "s2") as [Hkeep _].
  pose proof (only_delete_removes_only_run_adds None (PostInteract "s1")
                click_nowhere two_sessions "other") as [_ Hnone].
  split.
  - apply Hkeep; [discriminate|]. vm_compute. eauto.
  - apply Hnone; [discriminate|]. vm_compute. reflexivity.
Defined.


Lemma wait_edge_cases_witness :
  step_action 1%nat (JStr "wait")
    (JObj [("action", JStr "wait"); ("delay", JNum 0)]) w0
  = (w0, Fulfilled tt).
Proof.
  pose proof (wait_edge_cases (H:=demo) 1%nat
                (JObj [("action", JStr "wait"); ("delay", JNum 0)]) 0 w0)
    as (Hzero & _).
  apply Hzero; reflexivity.
Defined.

Lemma null_step_stops_the_run_there_witness :
  exists (done : RunState) (e : JsError),
    step_loop false 1%nat 0 [navigate_step "https://example.com"]
      (loop_start false)
      (world (fst (getOrCreateSession None empty_server)))
    = (world (fst (run None broken_request empty_server)), done, None)
    /\ length (results done) = 1%nat
    /\ get_prop JNull "action" = Rejected e
    /\ err_class e = TypeErrorC
    /\ run None broken_request empty_server
       = (mkServer (sessions (fst (getOrCreateSession None empty_server)))
            (world (fst (run None broken_request empty_server))),
          res_json (run_failed (error_text e) (results done)
                      (Some "sess_rs_k3x9q2ab"))
            (res_status 500 fresh_res)).
Proof.
  apply (null_step_stops_the_run_there None broken_request empty_server
           (fst (getOrCreateSession None empty_server)) "sess_rs_k3x9q2ab"
           1%nat [navigate_step "https://example.com"] [click_step "#go"] JNull).
  - reflexivity.
  - reflexivity.
  - reflexivity.
  - simpl. lia.
  - repeat constructor.
  - reflexivity.
  - vm_compute. reflexivity.
Defined.

Lemma launch_failure_fails_the_run_witness :
  run None (post scenario) cold_server
  = (fst (getOrCreateSession None cold_server),
     res_json (run_failed "Failed to launch browser" [] None)
       (res_status 500 fresh_res))
  /\ sessions (fst (getOrCreateSession None cold_server)) = sessions cold_server
  /\ "Failed to launch browser" <> "".
Proof.
  apply (launch_failure_fails_the_run None (post scenario) cold_server
           (fst (getOrCreateSession None cold_server))
           [navigate_step "https://example.com"; click_step "#missing"]
           (new_Error "Failed to launch browser")).
  - reflexivity.
  - reflexivity.
  - reflexivity.
  - simpl. lia.
  - vm_compute. reflexivity.
Defined.


Lemma generated_ids_tell_their_parts_witness :
  date_now w0 = date_now w0_later_call
  /\ snd (random_tail w0) = snd (random_tail w0_later_call)
  /\ String.prefix "sess_" (snd (randomId w0)) = true
  /\ snd (randomId w0) <> "".
Proof.
  apply (generated_ids_tell_their_parts (H:=demo) w0 w0_later_call).
  - vm_compute. discriminate.
  - vm_compute. discriminate.
  - reflexivity.
Defined.

End WorkedMore.
